(** * appengine-formatter: the logrus formatter for App Engine, in Rocq

    A shallow embedding of [Formatter.Format] and [stackdriverLevel], in the
    two revisions of the file that the repository holds:

    - [FormatterGo]: src/formatter.go;
    - [Part000]: src/unnamed/part_000, which adds [TrimFilenamePrefix] and
      lets an error that is also a [json.Marshaler] through unchanged.

    The Go libraries the code calls (encoding/json, bytes, strings, runtime,
    time, logrus) are modelled first, as far as [Format] uses them. *)

From stdpp Require Import gmap strings list fin_maps sorting pretty.
From Stdlib Require Import ZArith Ascii String.

#[local] Set Warnings "-register-all,-clear-no-such-hyp".

(** ** Byte strings

    A Go [string] and a [[]byte] are both sequences of bytes: both are
    [string] here, one [ascii] per byte. *)

Definition newline : ascii := "010"%char.
Definition dquote : ascii := "034"%char.
Definition backslash : ascii := "092"%char.

Definition str1 (c : ascii) : string := String c EmptyString.

(** [strings.Repeat]. *)
Fixpoint Repeat (s : string) (count : nat) : string :=
  match count with
  | O => EmptyString
  | S n => s +:+ Repeat s n
  end.

(** [strings.Join]. *)
Fixpoint Join (elems : list string) (sep : string) : string :=
  match elems with
  | [] => EmptyString
  | [x] => x
  | x :: rest => x +:+ sep +:+ Join rest sep
  end.

(** [strings.HasPrefix] is [String.prefix]; [strings.TrimPrefix] returns [s]
    without the leading [prefix], or [s] itself when it does not start
    with it. *)
Definition TrimPrefix (s prefix : string) : string :=
  if String.prefix prefix s
  then String.substring (String.length prefix)
                        (String.length s - String.length prefix) s
  else s.

(** [strings.Contains]. *)
Fixpoint Contains (s substr : string) : bool :=
  String.prefix substr s ||
  match s with
  | EmptyString => false
  | String _ s' => Contains s' substr
  end.

(** [s] ends with a newline, and with one only. *)
Fixpoint endsWithOneNewline (s : string) : bool :=
  match s with
  | EmptyString => false
  | String c s' =>
      match s' with
      | EmptyString => bool_decide (c = newline)
      | String d s'' =>
          match s'' with
          | EmptyString =>
              bool_decide (d = newline) && negb (bool_decide (c = newline))
          | String _ _ => endsWithOneNewline s'
          end
      end
  end.

(** ** Values held in a [log.Fields] map

    [log.Fields] is [map[string]interface{}].  The dynamic values are the
    closed sum the formatter and the encoder distinguish:
    - plain data: [nil], booleans, integers, strings, slices and string-keyed
      maps of such values (floating-point numbers are left out);
    - [VError ty msg mj]: a value of dynamic type [ty] implementing [error],
      whose [Error()] is [msg]; [mj] is its [MarshalJSON] method when it also
      implements [json.Marshaler]: [Some (inl j)] when the method returns the
      JSON text of the tree [j], [Some (inr e)] when it returns the error [e];
    - [VUnsupported ty]: a value of a type encoding/json rejects (a channel,
      a function, a complex number). *)
Inductive value :=
| VNull
| VBool (b : bool)
| VInt (n : Z)
| VString (s : string)
| VArray (l : list value)
| VObject (m : gmap string value)
| VError (ty msg : string) (mj : option (value + string))
| VUnsupported (ty : string).

Definition isError (v : value) : bool :=
  match v with VError _ _ _ => true | _ => false end.

Definition isMarshaler (v : value) : bool :=
  match v with VError _ _ (Some _) => true | _ => false end.

(** ** encoding/json *)
Module json.

(** The errors [Marshal] returns, and their [Error()] text. *)
Inductive error :=
| UnsupportedTypeError (ty : string)
| MarshalerError (ty : string) (err : string).

Definition Error (e : error) : string :=
  match e with
  | UnsupportedTypeError ty => "json: unsupported type: " +:+ ty
  | MarshalerError ty err =>
      "json: error calling MarshalJSON for type " +:+ ty +:+ ": " +:+ err
  end.

Inductive result (A : Type) :=
| Ok (a : A)
| Err (e : error).
Arguments Ok {A} a.
Arguments Err {A} e.

Definition bind {A B} (r : result A) (k : A → result B) : result B :=
  match r with Ok a => k a | Err e => Err e end.

(** The values of an object's fields, in order: the first error wins. *)
Fixpoint collect {A} (l : list (string * result A))
  : result (list (string * A)) :=
  match l with
  | [] => Ok []
  | (k, r) :: rest =>
      bind r (λ a, bind (collect rest) (λ rest', Ok ((k, a) :: rest')))
  end.

(** The elements of an array, in order. *)
Fixpoint collectList {A} (l : list (result A)) : result (list A) :=
  match l with
  | [] => Ok []
  | r :: rest =>
      bind r (λ a, bind (collectList rest) (λ rest', Ok (a :: rest')))
  end.

(** *** String literals

    The encoder of [json.NewEncoder] has HTML escaping on.  Printable
    ASCII other than the quote, the backslash and [<], [>], [&] is copied;
    the others are escaped.  Bytes from 0x80 up are copied: the strings
    are taken to be valid UTF-8 without U+2028 and U+2029. *)
Definition hexDigit (n : N) : ascii :=
  ascii_of_N (if (n <? 10)%N then 48 + n else 87 + n).

Definition escapeByte (c : ascii) : string :=
  let n := N_of_ascii c in
  if (n =? 34)%N || (n =? 92)%N then String backslash (str1 c)
  else if (n =? 8)%N then String backslash "b"
  else if (n =? 12)%N then String backslash "f"
  else if (n =? 10)%N then String backslash "n"
  else if (n =? 13)%N then String backslash "r"
  else if (n =? 9)%N then String backslash "t"
  else if (n <? 32)%N || (n =? 60)%N || (n =? 62)%N || (n =? 38)%N
  then String backslash
         ("u00" +:+ String (hexDigit (n / 16)) (str1 (hexDigit (n mod 16))))
  else str1 c.

Fixpoint escape (s : string) : string :=
  match s with
  | EmptyString => EmptyString
  | String c s' => escapeByte c +:+ escape s'
  end.

Definition quote (s : string) : string :=
  String dquote (escape s +:+ str1 dquote).

(** *** Objects

    A map is written with its keys sorted bytewise.  [pp] is the encoder's
    indentation, [Some (prefix, indent)] once [SetIndent] made one of the
    two non-empty; [depth] is the nesting depth of the object. *)
Definition keyLe {A} (x y : string * A) : Prop := String.le x.1 y.1.

#[global] Instance keyLe_dec {A} : RelDecision (@keyLe A) :=
  λ x y, decide (String.le x.1 y.1).

Definition sortKeys {A} (m : gmap string A) : list (string * A) :=
  merge_sort keyLe (map_to_list m).

Definition indentLine (pp : string * string) (depth : nat) : string :=
  String newline (pp.1 +:+ Repeat pp.2 depth).

(** A field of an object: after the colon [Indent] puts a space. *)
Definition memberText (pp : option (string * string)) (kv : string * string)
  : string :=
  quote kv.1 +:+ (match pp with Some _ => ": " | None => ":" end) +:+ kv.2.

(** An object, from the texts of its fields: [Indent] leaves the empty
    object as it is and puts each field of another on a line of its own. *)
Definition objectText (pp : option (string * string)) (depth : nat)
    (fields : list (string * string)) : string :=
  match pp, fields with
  | Some p, _ :: _ =>
      "{" +:+ indentLine p (S depth)
          +:+ Join (map (memberText pp) fields) ("," +:+ indentLine p (S depth))
          +:+ indentLine p depth +:+ "}"
  | _, _ => "{" +:+ Join (map (memberText pp) fields) "," +:+ "}"
  end.

(** An array, from the texts of its elements. *)
Definition arrayText (pp : option (string * string)) (depth : nat)
    (items : list string) : string :=
  match pp, items with
  | Some p, _ :: _ =>
      "[" +:+ indentLine p (S depth)
          +:+ Join items ("," +:+ indentLine p (S depth))
          +:+ indentLine p depth +:+ "]"
  | _, _ => "[" +:+ Join items "," +:+ "]"
  end.

(** *** [Marshal], followed by [Indent] when indentation is on

    An error without [MarshalJSON] is encoded by reflection over its
    struct; as for the values of [errors.New] and [fmt.Errorf], it has no
    exported field and comes out as the empty object. *)
Fixpoint render (pp : option (string * string)) (depth : nat) (v : value)
  : result string :=
  match v with
  | VNull => Ok "null"
  | VBool b => Ok (if b then "true" else "false")
  | VInt n => Ok (pretty n)
  | VString s => Ok (quote s)
  | VArray l =>
      bind (collectList (map (render pp (S depth)) l))
           (λ items, Ok (arrayText pp depth items))
  | VObject m =>
      bind (collect (sortKeys (render pp (S depth) <$> m)))
           (λ fields, Ok (objectText pp depth fields))
  | VError ty _ None => Ok "{}"
  | VError ty _ (Some (inl j)) => render pp depth j
  | VError ty _ (Some (inr e)) => Err (MarshalerError ty e)
  | VUnsupported ty => Err (UnsupportedTypeError ty)
  end.

(** *** [Encoder]

    [w] is the content of the buffer the encoder writes to. *)
Record Encoder := {
  w : string;
  indentPrefix : string;
  indentValue : string;
}.

Definition NewEncoder (b : string) : Encoder :=
  {| w := b; indentPrefix := EmptyString; indentValue := EmptyString |}.

Definition SetIndent (enc : Encoder) (prefix indent : string) : Encoder :=
  {| w := w enc; indentPrefix := prefix; indentValue := indent |}.

Definition indentation (enc : Encoder) : option (string * string) :=
  if bool_decide (indentPrefix enc = EmptyString
                  ∧ indentValue enc = EmptyString)
  then None
  else Some (indentPrefix enc, indentValue enc).

(** [Encode] marshals into a scratch buffer, ends the value with a
    newline, and only then writes to [w]: on an error [w] is untouched.
    It returns the new content of [w] and the error, if any. *)
Definition Encode (enc : Encoder) (v : value) : string * option error :=
  match render (indentation enc) 0 v with
  | Ok text => (w enc +:+ text +:+ str1 newline, None)
  | Err e => (w enc, Some e)
  end.

End json.

(** ** runtime, time and logrus *)
Module runtime.
(** [runtime.Frame], the fields the formatter reads. *)
Record Frame := {
  Function : string;
  File : string;
  Line : Z;
}.
End runtime.

Module time.
(** A [time.Time], observed through [Unix()] and [Nanosecond()]. *)
Record Time := {
  Unix : Z;
  Nanosecond : Z;
}.
End time.

Module log.
(** [logrus.Level] is a [uint32]. *)
Definition Level := N.
Definition PanicLevel : Level := 0%N.
Definition FatalLevel : Level := 1%N.
Definition ErrorLevel : Level := 2%N.
Definition WarnLevel : Level := 3%N.
Definition InfoLevel : Level := 4%N.
Definition DebugLevel : Level := 5%N.
Definition TraceLevel : Level := 6%N.

(** [Level.String]: the text of [MarshalText], or "unknown". *)
Definition String (level : Level) : string :=
  if (level =? TraceLevel)%N then "trace"
  else if (level =? DebugLevel)%N then "debug"
  else if (level =? InfoLevel)%N then "info"
  else if (level =? WarnLevel)%N then "warning"
  else if (level =? ErrorLevel)%N then "error"
  else if (level =? FatalLevel)%N then "fatal"
  else if (level =? PanicLevel)%N then "panic"
  else "unknown".

Record Logger := {
  ReportCaller : bool;
}.

(** [logrus.FieldKeyTime]. *)
Definition FieldKeyTime : string := "time".
End log.

(** [logrus.Entry].  [Logger], [Caller] and [Buffer] are pointers, [None]
    when nil; [Buffer] holds the content of the [bytes.Buffer]. *)
Record Entry := {
  Logger : option log.Logger;
  Data : gmap string value;
  Time : time.Time;
  Level : log.Level;
  Caller : option runtime.Frame;
  Message : string;
  Buffer : option string;
}.

(** [Entry.HasCaller]. *)
Definition HasCaller (entry : Entry) : bool :=
  match Logger entry with
  | Some logger =>
      log.ReportCaller logger && bool_decide (is_Some (Caller entry))
  | None => false
  end.

(** ** The code the two revisions share

    [stackdriverLevel], and in [Format] the map of the caller, the loop over
    [entry.Data] but for its type switch, and the encoding, are the same
    text in both files. *)

Definition stackdriverLevel (l : log.Level) : string :=
  if (l =? log.PanicLevel)%N || (l =? log.FatalLevel)%N then "CRITICAL"
  else if (l =? log.ErrorLevel)%N then "ERROR"
  else if (l =? log.WarnLevel)%N then "WARNING"
  else if (l =? log.InfoLevel)%N then "INFO"
  else if (l =? log.DebugLevel)%N || (l =? log.TraceLevel)%N then "DEBUG"
  else "DEFAULT".

Definition sourceLocationKey : string := "logging.googleapis.com/sourceLocation".

(** The [timestamp] value. *)
Definition timestampValue (t : time.Time) : value :=
  VObject {[ "seconds" := VInt (time.Unix t);
             "nanos" := VInt (time.Nanosecond t) ]}.

(** The map [l] of the caller, from [funcVal], [fileVal] and the line. *)
Definition sourceLocation (funcVal fileVal : string) (line : Z)
  : gmap string value :=
  let l : gmap string value := ∅ in
  let l := if bool_decide (funcVal ≠ EmptyString)
           then <["function" := VString funcVal]> l else l in
  let l := if bool_decide (fileVal ≠ EmptyString)
           then <["line" := VInt line]> (<["file" := VString fileVal]> l)
           else l in
  l.

(** [for k, v := range entry.Data].  Go leaves the order of a [range] over a
    map open: [order] is the order the loop meets the entries in, any
    permutation of them. *)
Definition rangeOrder (m : gmap string value) (order : list (string * value))
  : Prop :=
  order ≡ₚ map_to_list m.

(** The key a field is stored under: [k], or [fields.k] when [data] has [k]. *)
Definition fieldKey (data : gmap string value) (k : string) : string :=
  if bool_decide (is_Some (data !! k)) then "fields." +:+ k else k.

(** The loop; [typeSwitch] is the value the type switch of the revision
    stores for [v]. *)
Definition rangeData (typeSwitch : value → value) (data : gmap string value)
    (order : list (string * value)) : gmap string value :=
  foldl (λ data kv, <[fieldKey data kv.1 := typeSwitch kv.2]> data) data order.

(** What a call of [Format] leaves: the two values it returns, nil being
    [None], and the content of [entry.Buffer] afterwards. *)
Record Outcome := {
  bytes : option string;
  err : option string;
  entryBuffer : option string;
}.

(** From [var b *bytes.Buffer] to the end of [Format]. *)
Definition encodeData (prettyPrint : bool) (entry : Entry)
    (data : gmap string value) : Outcome :=
  let b := match Buffer entry with
           | Some b => b
           | None => EmptyString
           end in
  let encoder := json.NewEncoder b in
  let encoder := if prettyPrint
                 then json.SetIndent encoder EmptyString "  "
                 else encoder in
  let '(b, e) := json.Encode encoder (VObject data) in
  let buffer := match Buffer entry with
                | Some _ => Some b
                | None => None
                end in
  match e with
  | Some e =>
      {| bytes := None;
         err := Some ("failed to marshal fields to JSON, " +:+ json.Error e);
         entryBuffer := buffer |}
  | None => {| bytes := Some b; err := None; entryBuffer := buffer |}
  end.

(** ** src/formatter.go *)
Module FormatterGo.

Record Formatter := {
  DisableTimestamp : bool;
  CallerPrettyfier : option (runtime.Frame → string * string);
  PrettyPrint : bool;
}.

(** [funcVal] and [fileVal] (lines 65 to 69). *)
Definition callerVals (f : Formatter) (caller : runtime.Frame)
  : string * string :=
  let funcVal := runtime.Function caller in
  let fileVal := runtime.File caller in
  match CallerPrettyfier f with
  | Some prettyfier => prettyfier caller
  | None => (funcVal, fileVal)
  end.

(** [data] when the loop over [entry.Data] starts (lines 52 to 78); the
    size given to [make] is a capacity only. *)
Definition reserved (f : Formatter) (entry : Entry) : gmap string value :=
  let data : gmap string value := ∅ in
  let data := if negb (DisableTimestamp f)
              then <["timestamp" := timestampValue (Time entry)]> data
              else data in
  let data := <["message" := VString (Message entry)]> data in
  let data := <["severity" := VString (stackdriverLevel (Level entry))]> data in
  let data := <["level" := VString (log.String (Level entry))]> data in
  if HasCaller entry then
    match Caller entry with
    | Some caller =>
        let '(funcVal, fileVal) := callerVals f caller in
        let l := sourceLocation funcVal fileVal (runtime.Line caller) in
        <[sourceLocationKey := VObject l]> data
    | None => data
    end
  else data.

(** The type switch (lines 84 to 91): an error is stored as its message. *)
Definition typeSwitch (v : value) : value :=
  match v with
  | VError _ msg _ => VString msg
  | _ => v
  end.

(** [data] when the loop is over (line 92): what is encoded. *)
Definition document (f : Formatter) (entry : Entry)
    (order : list (string * value)) : gmap string value :=
  rangeData typeSwitch (reserved f entry) order.

Definition Format (f : Formatter) (entry : Entry)
    (order : list (string * value)) : Outcome :=
  encodeData (PrettyPrint f) entry (document f entry order).

End FormatterGo.

(** ** src/unnamed/part_000 *)
Module Part000.

Record Formatter := {
  DisableTimestamp : bool;
  CallerPrettyfier : option (runtime.Frame → string * string);
  TrimFilenamePrefix : string;
  PrettyPrint : bool;
}.

(** [funcVal] and [fileVal] (lines 71 to 76): the prettyfier is given the
    frame itself, so its result replaces the trimmed file name. *)
Definition callerVals (f : Formatter) (caller : runtime.Frame)
  : string * string :=
  let funcVal := runtime.Function caller in
  let fileVal := runtime.File caller in
  let fileVal := TrimPrefix fileVal (TrimFilenamePrefix f) in
  match CallerPrettyfier f with
  | Some prettyfier => prettyfier caller
  | None => (funcVal, fileVal)
  end.

(** [data] when the loop starts (lines 58 to 85). *)
Definition reserved (f : Formatter) (entry : Entry) : gmap string value :=
  let data : gmap string value := ∅ in
  let data := if negb (DisableTimestamp f)
              then <["timestamp" := timestampValue (Time entry)]> data
              else data in
  let data := <["message" := VString (Message entry)]> data in
  let data := <["severity" := VString (stackdriverLevel (Level entry))]> data in
  let data := <["level" := VString (log.String (Level entry))]> data in
  if HasCaller entry then
    match Caller entry with
    | Some caller =>
        let '(funcVal, fileVal) := callerVals f caller in
        let l := sourceLocation funcVal fileVal (runtime.Line caller) in
        <[sourceLocationKey := VObject l]> data
    | None => data
    end
  else data.

(** The type switch (lines 91 to 104): an error is stored as it is when it
    is a [json.Marshaler], as its message otherwise. *)
Definition typeSwitch (v : value) : value :=
  match v with
  | VError _ msg (Some _) => v
  | VError _ msg None => VString msg
  | _ => v
  end.

Definition document (f : Formatter) (entry : Entry)
    (order : list (string * value)) : gmap string value :=
  rangeData typeSwitch (reserved f entry) order.

Definition Format (f : Formatter) (entry : Entry)
    (order : list (string * value)) : Outcome :=
  encodeData (PrettyPrint f) entry (document f entry order).

End Part000.

(** ** The words of the specification *)

(** The severity table: the name of a level, then the coarse severity of
    the name. *)
Module Spec.
Inductive LevelName :=
| Panic | Fatal | Error | Warning | Info | Debug | Trace | Unknown.

Definition levelName (l : log.Level) : LevelName :=
  match l with
  | 0%N => Panic
  | 1%N => Fatal
  | 2%N => Error
  | 3%N => Warning
  | 4%N => Info
  | 5%N => Debug
  | 6%N => Trace
  | _ => Unknown
  end.

Definition severity (n : LevelName) : string :=
  match n with
  | Panic | Fatal => "CRITICAL"
  | Error => "ERROR"
  | Warning => "WARNING"
  | Info => "INFO"
  | Debug | Trace => "DEBUG"
  | Unknown => "DEFAULT"
  end.
End Spec.

(** The reserved output keys of a call: [timestamp] unless timestamps are
    off, [message], [severity], [level], and the source location key when
    the entry has a caller. *)
Definition reservedKey (disableTimestamp hasCaller : bool) (k : string) : Prop :=
  (k = "timestamp" ∧ disableTimestamp = false)
  ∨ k = "message" ∨ k = "severity" ∨ k = "level"
  ∨ (k = sourceLocationKey ∧ hasCaller = true).

(** The rule of the caller's sub-fields: [function] unless [funcVal] is
    empty, [file] and [line] unless [fileVal] is empty. *)
Definition suppressionRule (funcVal fileVal : string) (line : Z)
    (l : gmap string value) : Prop :=
  l !! "function"
  = (if bool_decide (funcVal = EmptyString) then None
     else Some (VString funcVal))
  ∧ l !! "file"
    = (if bool_decide (fileVal = EmptyString) then None
       else Some (VString fileVal))
  ∧ l !! "line"
    = (if bool_decide (fileVal = EmptyString) then None
       else Some (VInt line))
  ∧ (is_Some (l !! "line") → is_Some (l !! "file")).

(** The indentation [Format] asks the encoder for. *)
Definition indentOf (prettyPrint : bool) : option (string * string) :=
  if prettyPrint then Some (EmptyString, "  ") else None.

(** The values [Marshal] accepts as fields of the document. *)
Definition renders (pp : option (string * string)) (v : value) : Prop :=
  ∃ text, json.render pp 1 v = json.Ok text.

(** What [Encode] writes for the document [data]: the text and a newline,
    or nothing when [Marshal] fails. *)
Definition written (prettyPrint : bool) (data : gmap string value) : string :=
  match json.render (indentOf prettyPrint) 0 (VObject data) with
  | json.Ok text => text +:+ str1 newline
  | json.Err _ => EmptyString
  end.

(** The error rule, for the document [data] and the outcome [out] of the
    call: an error exactly when the encoder fails on [data], made of the
    fixed prefix and the encoder's error, with nil bytes; bytes otherwise. *)
Definition errorRule (prettyPrint : bool) (data : gmap string value)
    (out : Outcome) : Prop :=
  (∀ e, err out = Some e
        ↔ ∃ je, json.render (indentOf prettyPrint) 0 (VObject data)
                = json.Err je
                ∧ e = "failed to marshal fields to JSON, " +:+ json.Error je)
  ∧ (is_Some (err out) → bytes out = None)
  ∧ (err out = None → is_Some (bytes out)).

(** The buffer rule, for the document [data] and the outcome [out] of the
    call: the buffer of the entry, when there is one, holds what it held
    followed by what [Encode] wrote; the bytes returned are those of the
    buffer, which starts empty when the entry has none. *)
Definition bufferRule (prettyPrint : bool) (entry : Entry)
    (data : gmap string value) (out : Outcome) : Prop :=
  entryBuffer out
  = (λ b, b +:+ written prettyPrint data) <$> Buffer entry
  ∧ ∀ o, bytes out = Some o →
         o = default EmptyString (Buffer entry) +:+ written prettyPrint data.

(** ** A common form for the proofs

    [data] when the loop starts, from the parts of the formatter it depends
    on: both [FormatterGo.reserved] and [Part000.reserved] unfold to it. *)
Definition reservedWith (disableTimestamp : bool)
    (vals : runtime.Frame → string * string) (entry : Entry)
  : gmap string value :=
  let data : gmap string value := ∅ in
  let data := if negb disableTimestamp
              then <["timestamp" := timestampValue (Time entry)]> data
              else data in
  let data := <["message" := VString (Message entry)]> data in
  let data := <["severity" := VString (stackdriverLevel (Level entry))]> data in
  let data := <["level" := VString (log.String (Level entry))]> data in
  if HasCaller entry then
    match Caller entry with
    | Some caller =>
        let '(funcVal, fileVal) := vals caller in
        let l := sourceLocation funcVal fileVal (runtime.Line caller) in
        <[sourceLocationKey := VObject l]> data
    | None => data
    end
  else data.

(** ** Example entries *)
Module Examples.

Definition stdLogger : log.Logger := {| log.ReportCaller := false |}.
Definition callerLogger : log.Logger := {| log.ReportCaller := true |}.

(** [log.WithField(k, v)]: an entry of the standard logger with the one
    field, the zero time, the zero level and an empty message. *)
Definition zeroTime : time.Time :=
  {| time.Unix := -62135596800; time.Nanosecond := 0 |}.

Definition WithFields (fields : gmap string value) : Entry :=
  {| Logger := Some stdLogger;
     Data := fields;
     Time := zeroTime;
     Level := log.PanicLevel;
     Caller := None;
     Message := EmptyString;
     Buffer := None |}.

Definition WithField (k : string) (v : value) : Entry :=
  WithFields {[ k := v ]}.

(** [&Formatter{}], and the same with [DisableTimestamp: true]. *)
Definition go : FormatterGo.Formatter :=
  {| FormatterGo.DisableTimestamp := false;
     FormatterGo.CallerPrettyfier := None;
     FormatterGo.PrettyPrint := false |}.

Definition p0 : Part000.Formatter :=
  {| Part000.DisableTimestamp := false;
     Part000.CallerPrettyfier := None;
     Part000.TrimFilenamePrefix := EmptyString;
     Part000.PrettyPrint := false |}.

Definition goNoTimestamp : FormatterGo.Formatter :=
  {| FormatterGo.DisableTimestamp := true;
     FormatterGo.CallerPrettyfier := None;
     FormatterGo.PrettyPrint := false |}.

Definition p0NoTimestamp : Part000.Formatter :=
  {| Part000.DisableTimestamp := true;
     Part000.CallerPrettyfier := None;
     Part000.TrimFilenamePrefix := EmptyString;
     Part000.PrettyPrint := false |}.

(** A prettyfier that hides the caller. *)
Definition hide (_ : runtime.Frame) : string * string :=
  (EmptyString, EmptyString).

Definition goHide : FormatterGo.Formatter :=
  {| FormatterGo.DisableTimestamp := false;
     FormatterGo.CallerPrettyfier := Some hide;
     FormatterGo.PrettyPrint := true |}.

Definition p0Hide : Part000.Formatter :=
  {| Part000.DisableTimestamp := false;
     Part000.CallerPrettyfier := Some hide;
     Part000.TrimFilenamePrefix := "/src/";
     Part000.PrettyPrint := true |}.

Definition frame : runtime.Frame :=
  {| runtime.Function := "main.handler";
     runtime.File := "/src/app/main.go";
     runtime.Line := 42 |}.

(** An entry with a caller, a buffer that is not empty, a field named as
    a reserved key and a plain error. *)
Definition request : Entry :=
  {| Logger := Some callerLogger;
     Data := {[ "message" := VString "mine";
                "error" := VError "*errors.errorString" "wild walrus" None;
                "n" := VInt 3 ]};
     Time := {| time.Unix := 1600000000; time.Nanosecond := 42 |};
     Level := log.InfoLevel;
     Caller := Some frame;
     Message := "hello";
     Buffer := Some "old" |}.

(** An error that is also a [json.Marshaler]. *)
Definition codedError : value :=
  VError "*main.codedError" "wild walrus"
         (Some (inl (VObject {[ "code" := VInt 7 ]}))).

(** A field named as a reserved key and a field named as its renaming. *)
Definition clash : Entry :=
  WithFields {[ "message" := VString "mine";
                "fields.message" := VString "other" ]}.

Definition renamedLast : list (string * value) :=
  [("fields.message", VString "other"); ("message", VString "mine")].

Definition renamedFirst : list (string * value) :=
  [("message", VString "mine"); ("fields.message", VString "other")].

(** The tests of the README: [&Formatter{}] on an entry, the loop taking
    the order of [map_to_list]. *)
Definition order (entry : Entry) : list (string * value) :=
  map_to_list (Data entry).

Definition document (entry : Entry) : gmap string value :=
  FormatterGo.document go entry (order entry).

Definition output (f : FormatterGo.Formatter) (entry : Entry) : string :=
  default EmptyString (bytes (FormatterGo.Format f entry (order entry))).

Definition timestampField : Entry :=
  WithField "timestamp" (VString "right now!").

Definition codedEntry : Entry := WithField "error" codedError.

Definition callerEntry : Entry :=
  {| Logger := Some callerLogger;
     Data := {[ sourceLocationKey := VString "howdy pardner" ]};
     Time := zeroTime;
     Level := log.PanicLevel;
     Caller := Some {| runtime.Function := "somefunc";
                       runtime.File := EmptyString;
                       runtime.Line := 0 |};
     Message := EmptyString;
     Buffer := None |}.
End Examples.

(** ** The caller of [Format] and [SourceFileLocation]

    logrus sets [entry.Buffer] before it calls [Format]. *)
Definition withBuffer (entry : Entry) (b : option string) : Entry :=
  {| Logger := Logger entry;
     Data := Data entry;
     Time := Time entry;
     Level := Level entry;
     Caller := Caller entry;
     Message := Message entry;
     Buffer := b |}.

(** [strings.HasSuffix] and [strings.TrimSuffix]. *)
Definition HasSuffix (s suffix : string) : bool :=
  (String.length suffix <=? String.length s)%nat
  && String.eqb (String.substring (String.length s - String.length suffix)
                                  (String.length suffix) s)
                suffix.

Definition TrimSuffix (s suffix : string) : string :=
  if HasSuffix s suffix
  then String.substring 0 (String.length s - String.length suffix) s
  else s.

Definition slash : ascii := "/"%char.

Module path.
(** The loop of [path.Base] that takes the trailing slashes off. *)
Fixpoint trimSlashes (path : string) : string :=
  match path with
  | EmptyString => EmptyString
  | String c rest =>
      match trimSlashes rest with
      | EmptyString =>
          if bool_decide (c = slash) then EmptyString else str1 c
      | rest' => String c rest'
      end
  end.

(** [lastSlash]: the index of the last slash, or -1. *)
Fixpoint lastSlash (s : string) : Z :=
  match s with
  | EmptyString => -1
  | String c rest =>
      let i := lastSlash rest in
      if (0 <=? i)%Z then (i + 1)%Z
      else if bool_decide (c = slash) then 0%Z else (-1)%Z
  end.

(** [path.Base]. *)
Definition Base (path : string) : string :=
  if bool_decide (path = EmptyString) then "."
  else
    let path := trimSlashes path in
    let i := lastSlash path in
    let path := if (0 <=? i)%Z
                then String.substring (Z.to_nat (i + 1))
                       (String.length path - Z.to_nat (i + 1)) path
                else path in
    if bool_decide (path = EmptyString) then "/" else path.
End path.

(** [SourceFileLocation] of src/unnamed/part_000 (lines 132 to 141);
    [file] and [ok] are what [runtime.Caller(1)] returns. *)
Definition SourceFileLocation (file : string) (ok : bool) : string :=
  if negb ok then EmptyString
  else TrimSuffix file (path.Base file).

(** No byte of [s] is a slash. *)
Fixpoint noSlash (s : string) : bool :=
  match s with
  | EmptyString => true
  | String c rest => negb (bool_decide (c = slash)) && noSlash rest
  end.


(** The error of a result of the encoder, if it is one. *)
Definition errorOf {A} (r : json.result A) : option json.error :=
  match r with
  | json.Ok _ => None
  | json.Err e => Some e
  end.

(** A measure of values, for the inductions over them. *)
Fixpoint vsize (v : value) : nat :=
  match v with
  | VArray l => S (sum_list (map vsize l))
  | VObject m => S (map_fold (λ _ v' acc, vsize v' + acc) 0 m)
  | VError _ _ (Some (inl j)) => S (vsize j)
  | _ => 1
  end.

(** How many keys [Format] sets before the loop. *)
Definition reservedCount (disableTimestamp hasCaller : bool) : nat :=
  3 + (if disableTimestamp then 0 else 1) + (if hasCaller then 1 else 0).

(** No field is named [fields.] followed by the name of a field. *)
Definition noRenamedNames (fields : gmap string value) : Prop :=
  ∀ k k0, is_Some (fields !! k) → is_Some (fields !! k0) →
          k ≠ "fields." +:+ k0.

(** * Properties *)

Lemma rangeOrder_map_to_list (m : gmap string value) :
  rangeOrder m (map_to_list m).
Proof. unfold rangeOrder. reflexivity. Qed.

(** ** Byte strings *)
Section strings.
Implicit Types s t u : string.

Lemma append_cons c s t : String c s +:+ t = String c (s +:+ t).
Proof. reflexivity. Qed.

Lemma append_nil_l s : EmptyString +:+ s = s.
Proof. reflexivity. Qed.

Lemma append_nil_r s : s +:+ EmptyString = s.
Proof. induction s as [|c s IH]; [done |]. by rewrite append_cons, IH. Qed.

Lemma append_assoc s t u : (s +:+ t) +:+ u = s +:+ (t +:+ u).
Proof.
  induction s as [|c s IH]; [done |].
  by rewrite !append_cons, IH.
Qed.


Lemma prefix_append s t : String.prefix s (s +:+ t) = true.
Proof.
  induction s as [|c s IH]; [by destruct t |].
  rewrite append_cons. simpl. by destruct (ascii_dec c c).
Qed.

Lemma Contains_unfold s t :
  Contains s t
  = String.prefix t s
    || match s with
       | EmptyString => false
       | String _ s' => Contains s' t
       end.
Proof. by destruct s. Qed.

Lemma Contains_prefix s t : String.prefix t s = true → Contains s t = true.
Proof. intros H. by rewrite Contains_unfold, H. Qed.

(** [strings.Contains] finds a part wherever it is. *)
Lemma Contains_middle s t u : Contains (s +:+ t +:+ u) t = true.
Proof.
  induction s as [|c s IH].
  - rewrite append_nil_l. apply Contains_prefix, prefix_append.
  - rewrite append_cons, Contains_unfold, IH. apply orb_true_r.
Qed.

Lemma Join_elem (l : list string) sep x :
  x ∈ l → ∃ s u, Join l sep = s +:+ x +:+ u.
Proof.
  induction l as [|y l IH]; [by intros ?%elem_of_nil |].
  intros [-> | Hin]%elem_of_cons.
  - exists EmptyString. destruct l as [|z l].
    + exists EmptyString. by rewrite append_nil_r.
    + by eexists.
  - destruct (IH Hin) as (s & u & Heq). destruct l as [|z l].
    + by apply elem_of_nil in Hin.
    + exists (y +:+ sep +:+ s), u.
      change (Join (y :: z :: l) sep) with (y +:+ sep +:+ Join (z :: l) sep).
      by rewrite Heq, !append_assoc.
Qed.
End strings.

(** ** The loop over [entry.Data] *)
Section range.
Context (conv : value → value).

Lemma rangeData_app data l1 l2 :
  rangeData conv data (l1 ++ l2) = rangeData conv (rangeData conv data l1) l2.
Proof. unfold rangeData. apply foldl_app. Qed.

Lemma rangeData_cons data kv l :
  rangeData conv data (kv :: l)
  = rangeData conv (<[fieldKey data kv.1 := conv kv.2]> data) l.
Proof. reflexivity. Qed.

Lemma fieldKey_set (data : gmap string value) k :
  is_Some (data !! k) → fieldKey data k = "fields." +:+ k.
Proof. intros H. unfold fieldKey. by rewrite bool_decide_eq_true_2. Qed.

Lemma fieldKey_unset (data : gmap string value) k :
  data !! k = None → fieldKey data k = k.
Proof.
  intros H. unfold fieldKey. rewrite bool_decide_eq_false_2; [done |].
  rewrite H. by intros [? ?].
Qed.

Lemma fields_prefix_inj (a b : string) :
  "fields." +:+ a = "fields." +:+ b → a = b.
Proof. intros H. by simplify_eq/=. Qed.

(** A key that is set keeps its value through one iteration, unless the
    iteration renames its own key to it. *)
Lemma step_preserved (data : gmap string value) K x kv :
  data !! K = Some x →
  K ≠ "fields." +:+ kv.1 →
  <[fieldKey data kv.1 := conv kv.2]> data !! K = Some x.
Proof.
  intros HK Hne. unfold fieldKey. case_bool_decide as Hset.
  - rewrite lookup_insert_ne; [done | congruence].
  - rewrite lookup_insert_ne; [done |].
    intros Heq. apply Hset. rewrite Heq. by eexists.
Qed.

Lemma rangeData_preserved l : ∀ (data : gmap string value) K x,
  data !! K = Some x →
  Forall (λ kv, K ≠ "fields." +:+ kv.1) l →
  rangeData conv data l !! K = Some x.
Proof.
  induction l as [|kv l IH]; intros data K x HK Hall; [done |].
  apply Forall_cons in Hall as [Hkv Hall].
  apply IH; [| done]. by apply step_preserved.
Qed.

(** A key that is not set stays so through an iteration on another key. *)
Lemma step_absent (data : gmap string value) K kv :
  data !! K = None →
  K ≠ kv.1 → K ≠ "fields." +:+ kv.1 →
  <[fieldKey data kv.1 := conv kv.2]> data !! K = None.
Proof.
  intros HK Hne1 Hne2. rewrite lookup_insert_ne; [done |].
  unfold fieldKey. case_bool_decide; congruence.
Qed.

Lemma rangeData_absent l : ∀ (data : gmap string value) K,
  data !! K = None →
  Forall (λ kv, K ≠ kv.1 ∧ K ≠ "fields." +:+ kv.1) l →
  rangeData conv data l !! K = None.
Proof.
  induction l as [|kv l IH]; intros data K HK Hall; [done |].
  apply Forall_cons in Hall as [[Hkv1 Hkv2] Hall].
  apply IH; [| done]. by apply step_absent.
Qed.

(** Where the field [k] of [entry.Data] ends, whatever the order of the
    loop: under [fields.k] when [k] is a key of [sys], the map the loop
    starts from; under [k] itself otherwise, provided [k] is not
    [fields.k0] for another field [k0].  [sys] has no key that starts with
    [fields.]. *)
Lemma rangeData_emitted (sys D : gmap string value) order k v :
  rangeOrder D order →
  D !! k = Some v →
  (∀ r k', is_Some (sys !! r) → r ≠ "fields." +:+ k') →
  (sys !! k = None → ∀ k0, is_Some (D !! k0) → k ≠ "fields." +:+ k0) →
  rangeData conv sys order !! fieldKey sys k = Some (conv v).
Proof.
  intros Hord Hk Hsys Hfree.
  assert (Hin : (k, v) ∈ order).
  { rewrite Hord. by apply elem_of_map_to_list. }
  assert (Hnd : NoDup order.*1).
  { rewrite Hord. apply NoDup_fst_map_to_list. }
  assert (Hdom : ∀ kv, kv ∈ order → is_Some (D !! kv.1)).
  { intros [k0 v0] H0. rewrite Hord in H0.
    apply elem_of_map_to_list in H0. by eexists. }
  apply list_elem_of_split in Hin as (l1 & l2 & ->).
  rewrite fmap_app, fmap_cons in Hnd. simpl in Hnd.
  apply NoDup_app in Hnd as (_ & Hl1 & Hnd).
  apply NoDup_cons in Hnd as [Hl2 _].
  rewrite rangeData_app, rangeData_cons. simpl.
  set (data1 := rangeData conv sys l1).
  destruct (sys !! k) as [x|] eqn:Hsk.
  - assert (H1 : data1 !! k = Some x).
    { apply rangeData_preserved; [done |].
      apply Forall_forall. intros kv _. apply Hsys. by eexists. }
    rewrite (fieldKey_set sys k), (fieldKey_set data1 k) by (by eexists).
    apply rangeData_preserved; [apply lookup_insert_eq |].
    apply Forall_forall. intros kv Hkv Heq.
    apply fields_prefix_inj in Heq. subst k.
    apply Hl2. apply list_elem_of_fmap. by exists kv.
  - assert (H1 : data1 !! k = None).
    { apply rangeData_absent; [done |].
      apply Forall_forall. intros kv Hkv. split.
      - intros ->. apply (Hl1 kv.1).
        + apply list_elem_of_fmap. by exists kv.
        + left.
      - apply Hfree; [done |]. apply Hdom. set_solver. }
    rewrite (fieldKey_unset sys k), (fieldKey_unset data1 k) by done.
    apply rangeData_preserved; [apply lookup_insert_eq |].
    apply Forall_forall. intros kv Hkv.
    apply Hfree; [done |]. apply Hdom. set_solver.
Qed.

(** A key of the map the loop starts from keeps its value. *)
Lemma rangeData_reserved (sys : gmap string value) order r :
  (∀ k', r ≠ "fields." +:+ k') →
  is_Some (sys !! r) →
  rangeData conv sys order !! r = sys !! r.
Proof.
  intros Hr [x Hx]. rewrite Hx. apply rangeData_preserved; [done |].
  apply Forall_forall. intros kv _. apply Hr.
Qed.

(** A key the loop does not start with, and that no renaming can reach,
    is set by the loop if and only if it is a field. *)
Lemma rangeData_unreserved (sys D : gmap string value) order k :
  rangeOrder D order →
  (∀ r k', is_Some (sys !! r) → r ≠ "fields." +:+ k') →
  sys !! k = None →
  (∀ k0, k ≠ "fields." +:+ k0) →
  rangeData conv sys order !! k = conv <$> D !! k.
Proof.
  intros Hord Hsys Hk Hfree.
  destruct (D !! k) as [v|] eqn:HD; simpl.
  - rewrite <- (fieldKey_unset sys k) at 1 by done.
    apply (rangeData_emitted sys D); [done .. |].
    intros _ k0 _. apply Hfree.
  - apply rangeData_absent; [done |].
    apply Forall_forall. intros [k0 v0] H0. split; [| apply Hfree].
    intros ->. rewrite Hord in H0. apply elem_of_map_to_list in H0.
    simpl in *. congruence.
Qed.

(** Every value of the map after the loop was there before it or was
    stored by an iteration. *)
Lemma rangeData_values l : ∀ (data : gmap string value) K x,
  rangeData conv data l !! K = Some x →
  data !! K = Some x ∨ ∃ kv, kv ∈ l ∧ x = conv kv.2.
Proof.
  induction l as [|kv l IH]; intros data K x H; [by left |].
  rewrite rangeData_cons in H. apply IH in H as [H | (kv' & Hin & ->)].
  - apply lookup_insert_Some in H as [[_ <-] | [_ H]]; [right | by left].
    exists kv. split; [left | done].
  - right. exists kv'. split; [by right | done].
Qed.

End range.

(** ** The encoder *)
Section encoder.
Import json.

Lemma collect_Ok {A} (l : list (string * result A)) :
  (∃ fs, collect l = Ok fs) ↔ Forall (λ kr, ∃ a, kr.2 = Ok a) l.
Proof.
  induction l as [|[k r] l IH]; simpl.
  - split; [constructor | by eexists].
  - rewrite Forall_cons, <- IH. simpl. split.
    + intros [fs H]. destruct r as [a|e]; [| done]. simpl in H.
      destruct (collect l) as [fs'|e]; [| done]. by eauto.
    + intros [[a ->] [fs' ->]]. simpl. by eauto.
Qed.

Lemma collect_elem {A} (l : list (string * result A)) fs k a :
  collect l = Ok fs → (k, Ok a) ∈ l → (k, a) ∈ fs.
Proof.
  revert fs. induction l as [|[k' r] l IH]; intros fs H Hin.
  - by apply elem_of_nil in Hin.
  - simpl in H. destruct r as [a'|e]; [| done]. simpl in H.
    destruct (collect l) as [fs'|e]; [| done]. simpl in H.
    injection H as <-.
    apply elem_of_cons in Hin as [[= -> ->] | Hin]; [left |].
    right. by apply IH.
Qed.

Lemma render_VObject pp depth m :
  render pp depth (VObject m)
  = bind (collect (sortKeys (render pp (S depth) <$> m)))
         (λ fields, Ok (objectText pp depth fields)).
Proof. reflexivity. Qed.

(** An object is encoded if and only if each of its fields is. *)
Lemma render_VObject_Ok pp depth m :
  (∃ text, render pp depth (VObject m) = Ok text)
  ↔ ∀ k v, m !! k = Some v → ∃ text, render pp (S depth) v = Ok text.
Proof.
  rewrite render_VObject.
  transitivity (∃ fs, collect (sortKeys (render pp (S depth) <$> m)) = Ok fs).
  { split.
    - intros [text H].
      destruct (collect _) as [fs|e]; [by eauto | done].
    - intros [fs ->]. simpl. by eauto. }
  rewrite collect_Ok. unfold sortKeys.
  rewrite merge_sort_Permutation, Forall_forall. split.
  - intros H k v Hk.
    apply (H (k, render pp (S depth) v)).
    apply elem_of_map_to_list. by rewrite lookup_fmap, Hk.
  - intros H [k r] Hkr. apply elem_of_map_to_list in Hkr.
    rewrite lookup_fmap in Hkr.
    destruct (m !! k) as [v|] eqn:Hk; simplify_eq/=. by eapply H.
Qed.



Lemma objectText_member pp depth fields kv :
  kv ∈ fields →
  ∃ s u, objectText pp depth fields = s +:+ memberText pp kv +:+ u.
Proof.
  intros Hin.
  assert (Hj : ∀ sep, ∃ s u,
            Join (map (memberText pp) fields) sep
            = s +:+ memberText pp kv +:+ u).
  { intros sep. apply Join_elem, list_elem_of_fmap. by exists kv. }
  unfold objectText. destruct pp as [p|], fields as [|kv' fields];
    try (by apply elem_of_nil in Hin).
  - destruct (Hj ("," +:+ indentLine p (S depth))) as (s & u & ->).
    exists ("{" +:+ indentLine p (S depth) +:+ s),
           (u +:+ indentLine p depth +:+ "}").
    by rewrite !append_assoc.
  - destruct (Hj ",") as (s & u & ->).
    exists ("{" +:+ s), (u +:+ "}"). by rewrite !append_assoc.
Qed.

(** The text of an object holds the text of each of its fields. *)
Lemma render_VObject_member pp depth m text k v :
  render pp depth (VObject m) = Ok text →
  m !! k = Some v →
  ∃ t s u, render pp (S depth) v = Ok t
           ∧ text = s +:+ memberText pp (k, t) +:+ u.
Proof.
  rewrite render_VObject. intros H Hk.
  destruct (collect _) as [fs|e] eqn:Hc; [| done].
  simpl in H. injection H as <-.
  assert (Hin : (k, render pp (S depth) v)
                ∈ sortKeys (render pp (S depth) <$> m)).
  { unfold sortKeys. rewrite merge_sort_Permutation.
    apply elem_of_map_to_list. by rewrite lookup_fmap, Hk. }
  assert (Hok : ∃ t, render pp (S depth) v = Ok t).
  { assert (Hall : ∃ fs', collect (sortKeys (render pp (S depth) <$> m))
                          = Ok fs') by eauto.
    apply collect_Ok in Hall.
    apply (proj1 (Forall_forall _ _) Hall _ Hin). }
  destruct Hok as [t Ht]. exists t.
  destruct (objectText_member pp depth fs (k, t)) as (s & u & Heq).
  { eapply collect_elem; [done |]. by rewrite <- Ht. }
  by exists s, u.
Qed.
End encoder.

(** ** The end of [Format], from the result of [Marshal] *)

Lemma encodeData_Ok prettyPrint entry data text :
  json.render (indentOf prettyPrint) 0 (VObject data) = json.Ok text →
  encodeData prettyPrint entry data
  = {| bytes := Some (default EmptyString (Buffer entry)
                      +:+ text +:+ str1 newline);
       err := None;
       entryBuffer := (λ b, b +:+ text +:+ str1 newline) <$> Buffer entry |}.
Proof.
  intros H. unfold encodeData, json.Encode.
  replace (json.indentation _) with (indentOf prettyPrint)
    by (by destruct prettyPrint).
  replace (json.w _) with (default EmptyString (Buffer entry))
    by (by destruct prettyPrint, (Buffer entry)).
  rewrite H. by destruct (Buffer entry).
Qed.

Lemma encodeData_Err prettyPrint entry data e :
  json.render (indentOf prettyPrint) 0 (VObject data) = json.Err e →
  encodeData prettyPrint entry data
  = {| bytes := None;
       err := Some ("failed to marshal fields to JSON, " +:+ json.Error e);
       entryBuffer := Buffer entry |}.
Proof.
  intros H. unfold encodeData, json.Encode.
  replace (json.indentation _) with (indentOf prettyPrint)
    by (by destruct prettyPrint).
  replace (json.w _) with (default EmptyString (Buffer entry))
    by (by destruct prettyPrint, (Buffer entry)).
  rewrite H. by destruct (Buffer entry).
Qed.

Ltac encodeData_cases prettyPrint data :=
  let text := fresh "text" in
  let je := fresh "je" in
  let Hr := fresh "Hr" in
  destruct (json.render (indentOf prettyPrint) 0 (VObject data))
    as [text|je] eqn:Hr;
  [ rewrite (encodeData_Ok _ _ _ _ Hr) in *
  | rewrite (encodeData_Err _ _ _ _ Hr) in * ];
  simpl in *.


(** The bytes hold the text of each field of the document. *)
Lemma encodeData_member prettyPrint entry data out k v :
  bytes (encodeData prettyPrint entry data) = Some out →
  data !! k = Some v →
  ∃ t, json.render (indentOf prettyPrint) 1 v = json.Ok t
       ∧ Contains out (json.memberText (indentOf prettyPrint) (k, t)) = true.
Proof.
  encodeData_cases prettyPrint data; [| done]. intros [= <-] Hk.
  destruct (render_VObject_member _ _ _ _ _ _ Hr Hk) as (t & s & u & Ht & ->).
  exists t. split; [done |].
  rewrite !append_assoc, <- (append_assoc _ s). apply Contains_middle.
Qed.

Lemma encodeData_errorRule prettyPrint entry data :
  errorRule prettyPrint data (encodeData prettyPrint entry data).
Proof.
  unfold errorRule. encodeData_cases prettyPrint data.
  - split; [| split].
    + intros e. split; [done |]. by intros (je & ? & _).
    + by intros [? ?].
    + by eauto.
  - split; [| split; [done |]].
    + intros e. split.
      * intros [= <-]. by eauto.
      * by intros (je' & [= <-] & ->).
    + done.
Qed.

Lemma encodeData_bufferRule prettyPrint entry data :
  bufferRule prettyPrint entry data (encodeData prettyPrint entry data).
Proof.
  unfold bufferRule, written. encodeData_cases prettyPrint data.
  - split; [done |]. by intros o [= <-].
  - split; [| done].
    destruct (Buffer entry); simpl; [| done]. by rewrite append_nil_r.
Qed.

Lemma renders_timestampValue pp t : renders pp (timestampValue t).
Proof.
  apply render_VObject_Ok. intros k v H. unfold timestampValue in H.
  rewrite lookup_insert_Some, lookup_singleton_Some in H.
  destruct H as [[_ <-] | [_ [_ <-]]]; by eexists.
Qed.

Lemma renders_sourceLocation pp funcVal fileVal line :
  renders pp (VObject (sourceLocation funcVal fileVal line)).
Proof.
  apply render_VObject_Ok. intros k v. unfold sourceLocation.
  repeat case_bool_decide;
    rewrite ?lookup_insert_Some, lookup_empty; intros Hk;
    repeat (destruct Hk as [[_ <-] | [_ Hk]]; [by eexists |]); done.
Qed.

Lemma sourceLocation_rule funcVal fileVal line :
  suppressionRule funcVal fileVal line (sourceLocation funcVal fileVal line).
Proof.
  unfold suppressionRule, sourceLocation.
  destruct (decide (funcVal = EmptyString)) as [Hf|Hf],
           (decide (fileVal = EmptyString)) as [Hg|Hg];
    rewrite ?(bool_decide_eq_true_2 _ Hf), ?(bool_decide_eq_false_2 _ Hf),
            ?(bool_decide_eq_true_2 _ Hg), ?(bool_decide_eq_false_2 _ Hg);
    rewrite ?bool_decide_eq_true_2, ?bool_decide_eq_false_2 by tauto;
    simplify_map_eq; repeat split; by eauto.
Qed.

(** ** The map the loop starts from *)

Lemma HasCaller_Caller entry :
  HasCaller entry = true → is_Some (Caller entry).
Proof.
  unfold HasCaller. destruct (Logger entry); [| done].
  rewrite andb_true_iff, bool_decide_eq_true. tauto.
Qed.

Section reserved.
Context (d : bool) (vals : runtime.Frame → string * string) (entry : Entry).
#[local] Abbreviation sys := (reservedWith d vals entry).

Ltac reserved_cases :=
  unfold reservedWith;
  let Hhc := fresh "Hhc" in
  destruct (HasCaller entry) eqn:Hhc;
  [ destruct (HasCaller_Caller entry Hhc) as [? ->] | ];
  destruct d; simpl;
  repeat match goal with
         | |- context [let '(_, _) := ?p in _] => destruct p; simpl
         end.

Lemma reservedWith_message :
  sys !! "message" = Some (VString (Message entry)).
Proof. reserved_cases; by simplify_map_eq. Qed.

Lemma reservedWith_severity :
  sys !! "severity" = Some (VString (stackdriverLevel (Level entry))).
Proof. reserved_cases; by simplify_map_eq. Qed.

Lemma reservedWith_level :
  sys !! "level" = Some (VString (log.String (Level entry))).
Proof. reserved_cases; by simplify_map_eq. Qed.

Lemma reservedWith_timestamp :
  sys !! "timestamp"
  = if d then None else Some (timestampValue (Time entry)).
Proof. reserved_cases; by simplify_map_eq. Qed.

Lemma reservedWith_sourceLocation :
  sys !! sourceLocationKey
  = if HasCaller entry
    then (λ caller, VObject (sourceLocation (vals caller).1 (vals caller).2
                                            (runtime.Line caller)))
           <$> Caller entry
    else None.
Proof.
  unfold reservedWith. destruct (HasCaller entry) eqn:Hhc.
  - destruct (HasCaller_Caller entry Hhc) as [caller ->]. simpl.
    destruct (vals caller). by simplify_map_eq.
  - destruct d; by simplify_map_eq.
Qed.

Lemma reservedWith_dom k :
  is_Some (sys !! k) ↔ reservedKey d (HasCaller entry) k.
Proof.
  unfold reservedKey. reserved_cases;
    rewrite ?lookup_insert_is_Some, lookup_empty, <- not_eq_None_Some;
    unfold sourceLocationKey; naive_solver.
Qed.

(** No reserved key starts with [fields.]. *)
Lemma reservedWith_not_fields r k' :
  is_Some (sys !! r) → r ≠ "fields." +:+ k'.
Proof.
  intros [[-> _] | [-> | [-> | [-> | [-> _]]]]]%reservedWith_dom;
    intros H; by simplify_eq/=.
Qed.

Lemma reservedWith_renders pp r x : sys !! r = Some x → renders pp x.
Proof.
  intros H.
  assert (Hr : is_Some (sys !! r)) by (by eexists).
  apply reservedWith_dom in Hr as [[-> Hd] | [-> | [-> | [-> | [-> Hhc]]]]].
  - rewrite reservedWith_timestamp, Hd in H. simplify_eq.
    apply renders_timestampValue.
  - rewrite reservedWith_message in H. simplify_eq. by eexists.
  - rewrite reservedWith_severity in H. simplify_eq. by eexists.
  - rewrite reservedWith_level in H. simplify_eq. by eexists.
  - rewrite reservedWith_sourceLocation, Hhc in H.
    destruct (Caller entry); simplify_eq/=.
    apply renders_sourceLocation.
Qed.

Context (conv : value → value).

(** The loop leaves the reserved keys as they are. *)
Lemma loop_reserved order r :
  is_Some (sys !! r) → rangeData conv sys order !! r = sys !! r.
Proof.
  intros H. apply rangeData_reserved; [| done].
  intros k'. by apply reservedWith_not_fields.
Qed.

Lemma loop_emitted order k v :
  rangeOrder (Data entry) order →
  Data entry !! k = Some v →
  (sys !! k = None →
   ∀ k0, is_Some (Data entry !! k0) → k ≠ "fields." +:+ k0) →
  rangeData conv sys order !! fieldKey sys k = Some (conv v).
Proof.
  intros Hord Hk Hfree.
  apply (rangeData_emitted conv _ (Data entry)); try done.
  intros r k'. apply reservedWith_not_fields.
Qed.

(** Without a field named as the renaming of another, every field is kept:
    each has a key of its own, which is no reserved key and holds the value
    stored for it. *)
Lemma loop_lossless order :
  rangeOrder (Data entry) order →
  (∀ k k0, is_Some (Data entry !! k) → is_Some (Data entry !! k0) →
           k ≠ "fields." +:+ k0) →
  (∀ k v, Data entry !! k = Some v →
          rangeData conv sys order !! fieldKey sys k = Some (conv v)
          ∧ sys !! fieldKey sys k = None)
  ∧ (∀ k1 k2, is_Some (Data entry !! k1) → is_Some (Data entry !! k2) →
              fieldKey sys k1 = fieldKey sys k2 → k1 = k2).
Proof.
  intros Hord Hfree. split.
  - intros k v Hk. split.
    + apply loop_emitted; [done .. |]. intros _ k0 H0.
      apply Hfree; [by eexists | done].
    + destruct (sys !! k) as [x|] eqn:Hsk.
      * rewrite fieldKey_set by (by eexists).
        apply eq_None_not_Some. intros H.
        by apply (reservedWith_not_fields _ k) in H.
      * by rewrite fieldKey_unset.
  - intros k1 k2 H1 H2. unfold fieldKey.
    repeat case_bool_decide; intros Heq; try done.
    + by apply fields_prefix_inj.
    + symmetry in Heq. by apply Hfree in Heq.
    + by apply Hfree in Heq.
Qed.

Lemma loop_renders pp order :
  rangeOrder (Data entry) order →
  (∀ k v, Data entry !! k = Some v → renders pp (conv v)) →
  ∃ text, json.render pp 0 (VObject (rangeData conv sys order)) = json.Ok text.
Proof.
  intros Hord Hfields. apply render_VObject_Ok. intros K x HK.
  apply rangeData_values in HK as [HK | ([k v] & Hin & ->)].
  - by apply (reservedWith_renders pp K).
  - apply (Hfields k). rewrite Hord in Hin.
    by apply elem_of_map_to_list in Hin.
Qed.
End reserved.

(** Both revisions in the common form. *)
Lemma reserved_go f entry :
  FormatterGo.reserved f entry
  = reservedWith (FormatterGo.DisableTimestamp f) (FormatterGo.callerVals f)
                 entry.
Proof. reflexivity. Qed.

Lemma reserved_p0 f entry :
  Part000.reserved f entry
  = reservedWith (Part000.DisableTimestamp f) (Part000.callerVals f) entry.
Proof. reflexivity. Qed.

Lemma document_go f entry order :
  FormatterGo.document f entry order
  = rangeData FormatterGo.typeSwitch
              (reservedWith (FormatterGo.DisableTimestamp f)
                            (FormatterGo.callerVals f) entry) order.
Proof. reflexivity. Qed.

Lemma document_p0 f entry order :
  Part000.document f entry order
  = rangeData Part000.typeSwitch
              (reservedWith (Part000.DisableTimestamp f)
                            (Part000.callerVals f) entry) order.
Proof. reflexivity. Qed.

Create Rewrite HintDb common.
#[local] Hint Rewrite reserved_go reserved_p0 document_go document_p0 : common.

Lemma stackdriverLevel_table (l : log.Level) :
  stackdriverLevel l = Spec.severity (Spec.levelName l).
Proof.
  destruct l as [|p]; [done |].
  do 3 (destruct p as [p|p|]; try done).
Qed.

Lemma typeSwitch_plain (v : value) :
  isError v = false →
  FormatterGo.typeSwitch v = v ∧ Part000.typeSwitch v = v.
Proof. by destruct v. Qed.

(** * [Format] *)


(** What [Format] gives the reserved keys from the record, before the
    loop.  In both revisions. *)
Theorem reserved_values
    (f1 : FormatterGo.Formatter) (f2 : Part000.Formatter) (entry : Entry) :
  (FormatterGo.reserved f1 entry !! "message" = Some (VString (Message entry))
   ∧ FormatterGo.reserved f1 entry !! "severity"
     = Some (VString (stackdriverLevel (Level entry)))
   ∧ FormatterGo.reserved f1 entry !! "level"
     = Some (VString (log.String (Level entry)))
   ∧ FormatterGo.reserved f1 entry !! "timestamp"
     = (if FormatterGo.DisableTimestamp f1 then None
        else Some (timestampValue (Time entry)))
   ∧ FormatterGo.reserved f1 entry !! sourceLocationKey
     = (if HasCaller entry
        then (λ caller,
                VObject (sourceLocation (FormatterGo.callerVals f1 caller).1
                                        (FormatterGo.callerVals f1 caller).2
                                        (runtime.Line caller)))
               <$> Caller entry
        else None))
  ∧ (Part000.reserved f2 entry !! "message" = Some (VString (Message entry))
     ∧ Part000.reserved f2 entry !! "severity"
       = Some (VString (stackdriverLevel (Level entry)))
     ∧ Part000.reserved f2 entry !! "level"
       = Some (VString (log.String (Level entry)))
     ∧ Part000.reserved f2 entry !! "timestamp"
       = (if Part000.DisableTimestamp f2 then None
          else Some (timestampValue (Time entry)))
     ∧ Part000.reserved f2 entry !! sourceLocationKey
       = (if HasCaller entry
          then (λ caller,
                  VObject (sourceLocation (Part000.callerVals f2 caller).1
                                          (Part000.callerVals f2 caller).2
                                          (runtime.Line caller)))
                 <$> Caller entry
          else None)).
Proof.
  autorewrite with common.
  repeat split;
    auto using reservedWith_message, reservedWith_severity, reservedWith_level,
               reservedWith_timestamp, reservedWith_sourceLocation.
Qed.

(** C1. Whatever the entry, the configuration and the order of the loop, the
    [severity] key of the document [Format] encodes holds the severity the
    table gives for the level of the entry: CRITICAL for Panic and Fatal,
    ERROR for Error, WARNING for Warning, INFO for Info, DEBUG for Debug and
    Trace, DEFAULT for any other level; and when [Format] succeeds the bytes
    hold the key followed by that severity.  In both revisions. *)
Theorem severity_follows_table
    (f1 : FormatterGo.Formatter) (f2 : Part000.Formatter)
    (entry : Entry) (order : list (string * value)) :
  (FormatterGo.document f1 entry order !! "severity"
   = Some (VString (Spec.severity (Spec.levelName (Level entry))))
   ∧ ∀ out, bytes (FormatterGo.Format f1 entry order) = Some out →
       Contains out
         (json.memberText (indentOf (FormatterGo.PrettyPrint f1))
            ("severity",
             json.quote (Spec.severity (Spec.levelName (Level entry)))))
       = true)
  ∧ (Part000.document f2 entry order !! "severity"
     = Some (VString (Spec.severity (Spec.levelName (Level entry))))
     ∧ ∀ out, bytes (Part000.Format f2 entry order) = Some out →
         Contains out
           (json.memberText (indentOf (Part000.PrettyPrint f2))
              ("severity",
               json.quote (Spec.severity (Spec.levelName (Level entry)))))
         = true).
Proof.
  rewrite <- stackdriverLevel_table.
  assert (H1 : FormatterGo.document f1 entry order !! "severity"
               = Some (VString (stackdriverLevel (Level entry)))).
  { autorewrite with common.
    rewrite loop_reserved; rewrite reservedWith_severity; by eauto. }
  assert (H2 : Part000.document f2 entry order !! "severity"
               = Some (VString (stackdriverLevel (Level entry)))).
  { autorewrite with common.
    rewrite loop_reserved; rewrite reservedWith_severity; by eauto. }
  split; (split; [done |]); intros out Hout.
  - destruct (encodeData_member _ _ _ _ _ _ Hout H1) as (t & [= <-] & Hc).
    exact Hc.
  - destruct (encodeData_member _ _ _ _ _ _ Hout H2) as (t & [= <-] & Hc).
    exact Hc.
Qed.

Lemma severity_follows_table_witness :
  ∃ out,
    bytes (FormatterGo.Format Examples.go Examples.request
             (map_to_list (Data Examples.request))) = Some out
    ∧ Contains out (json.memberText None ("severity", json.quote "INFO"))
      = true.
Proof.
  destruct (severity_follows_table Examples.go Examples.p0 Examples.request
              (map_to_list (Data Examples.request))) as [[_ Hbytes] _].
  eexists. split; [by vm_compute |].
  apply Hbytes. by vm_compute.
Defined.

(** C2. When a field of the entry is named as a reserved output key
    ([timestamp] with timestamps on, [message], [severity], [level], the
    source location key with a caller), the document [Format] encodes holds
    the user's value under that name prefixed with [fields.], as the type
    switch stores it (the value itself unless it is an error), and the
    reserved key still holds the value [Format] gave it from the record.
    Whatever the order of the loop, in both revisions. *)
Theorem reserved_key_collision
    (f1 : FormatterGo.Formatter) (f2 : Part000.Formatter)
    (entry : Entry) (order : list (string * value))
    (k : string) (v : value) :
  rangeOrder (Data entry) order →
  Data entry !! k = Some v →
  (reservedKey (FormatterGo.DisableTimestamp f1) (HasCaller entry) k →
   FormatterGo.document f1 entry order !! ("fields." +:+ k)
   = Some (FormatterGo.typeSwitch v)
   ∧ is_Some (FormatterGo.reserved f1 entry !! k)
   ∧ FormatterGo.document f1 entry order !! k
     = FormatterGo.reserved f1 entry !! k)
  ∧ (reservedKey (Part000.DisableTimestamp f2) (HasCaller entry) k →
     Part000.document f2 entry order !! ("fields." +:+ k)
     = Some (Part000.typeSwitch v)
     ∧ is_Some (Part000.reserved f2 entry !! k)
     ∧ Part000.document f2 entry order !! k = Part000.reserved f2 entry !! k)
  ∧ (isError v = false →
     FormatterGo.typeSwitch v = v ∧ Part000.typeSwitch v = v).
Proof.
  intros Hord Hk. autorewrite with common.
  split; [| split; [| apply typeSwitch_plain]]; intros Hres.
  - apply (reservedWith_dom _ (FormatterGo.callerVals f1)) in Hres.
    split; [| split; [done | by apply loop_reserved]].
    rewrite <- (fieldKey_set (reservedWith _ _ entry) k) by done.
    apply loop_emitted; [done .. |].
    intros Hnone. rewrite Hnone in Hres. by destruct Hres.
  - apply (reservedWith_dom _ (Part000.callerVals f2)) in Hres.
    split; [| split; [done | by apply loop_reserved]].
    rewrite <- (fieldKey_set (reservedWith _ _ entry) k) by done.
    apply loop_emitted; [done .. |].
    intros Hnone. rewrite Hnone in Hres. by destruct Hres.
Qed.

Lemma reserved_key_collision_witness :
  FormatterGo.document Examples.go Examples.request
    (map_to_list (Data Examples.request)) !! "fields.message"
  = Some (VString "mine")
  ∧ FormatterGo.document Examples.go Examples.request
      (map_to_list (Data Examples.request)) !! "message"
    = Some (VString "hello").
Proof.
  destruct (reserved_key_collision Examples.go Examples.p0 Examples.request
              (map_to_list (Data Examples.request)) "message" (VString "mine"))
    as (Hgo & _ & _).
  - apply rangeOrder_map_to_list.
  - by vm_compute.
  - destruct Hgo as (Hfields & _ & Hkey).
    + right. by left.
    + split; [exact Hfields |]. rewrite Hkey. by vm_compute.
Defined.

(** C5. For an entry with a caller, the value of the source location key is
    a map that has [function] exactly when the function string (the
    prettyfier's, when there is one) is not empty, and [file] and [line]
    exactly when the file string is not empty: [line] never comes without
    [file].  In both revisions. *)
Theorem source_location_suppression
    (f1 : FormatterGo.Formatter) (f2 : Part000.Formatter)
    (entry : Entry) (order : list (string * value))
    (caller : runtime.Frame) :
  HasCaller entry = true →
  Caller entry = Some caller →
  (∃ l, FormatterGo.document f1 entry order !! sourceLocationKey
        = Some (VObject l)
        ∧ suppressionRule (FormatterGo.callerVals f1 caller).1
                          (FormatterGo.callerVals f1 caller).2
                          (runtime.Line caller) l)
  ∧ (∃ l, Part000.document f2 entry order !! sourceLocationKey
          = Some (VObject l)
          ∧ suppressionRule (Part000.callerVals f2 caller).1
                            (Part000.callerVals f2 caller).2
                            (runtime.Line caller) l).
Proof.
  intros Hhc Hc. autorewrite with common.
  split; eexists; (split; [| apply sourceLocation_rule]);
    rewrite loop_reserved; rewrite reservedWith_sourceLocation, Hhc, Hc;
    by eauto.
Qed.

Lemma source_location_suppression_witness :
  ∃ l, Part000.document Examples.p0Hide Examples.request
         (map_to_list (Data Examples.request)) !! sourceLocationKey
       = Some (VObject l)
       ∧ l !! "line" = None.
Proof.
  destruct (source_location_suppression Examples.goHide Examples.p0Hide
              Examples.request (map_to_list (Data Examples.request))
              Examples.frame)
    as (_ & l & Hl & _ & _ & Hline & _); [by vm_compute .. |].
  exists l. split; [exact Hl | exact Hline].
Defined.

(** C10. For an entry with a caller and a prettyfier that returns two empty
    strings, the document still has the source location key; its value is
    the empty map, which the encoder writes as the empty object, with or
    without indentation.  In both revisions. *)
Theorem source_location_kept_when_empty
    (f1 : FormatterGo.Formatter) (f2 : Part000.Formatter)
    (entry : Entry) (order : list (string * value))
    (caller : runtime.Frame)
    (p1 p2 : runtime.Frame → string * string) :
  HasCaller entry = true →
  Caller entry = Some caller →
  FormatterGo.CallerPrettyfier f1 = Some p1 →
  p1 caller = (EmptyString, EmptyString) →
  Part000.CallerPrettyfier f2 = Some p2 →
  p2 caller = (EmptyString, EmptyString) →
  FormatterGo.document f1 entry order !! sourceLocationKey = Some (VObject ∅)
  ∧ Part000.document f2 entry order !! sourceLocationKey = Some (VObject ∅)
  ∧ (∀ pp depth, json.render pp depth (VObject ∅) = json.Ok "{}")
  ∧ (∀ out, bytes (FormatterGo.Format f1 entry order) = Some out →
       Contains out
         (json.memberText (indentOf (FormatterGo.PrettyPrint f1))
            (sourceLocationKey, "{}")) = true)
  ∧ (∀ out, bytes (Part000.Format f2 entry order) = Some out →
       Contains out
         (json.memberText (indentOf (Part000.PrettyPrint f2))
            (sourceLocationKey, "{}")) = true).
Proof.
  intros Hhc Hc Hp1 Hr1 Hp2 Hr2.
  assert (H1 : FormatterGo.document f1 entry order !! sourceLocationKey
               = Some (VObject ∅)).
  { autorewrite with common.
    rewrite loop_reserved; rewrite reservedWith_sourceLocation, Hhc, Hc;
      [| by eauto]. simpl.
    unfold FormatterGo.callerVals. by rewrite Hp1, Hr1. }
  assert (H2 : Part000.document f2 entry order !! sourceLocationKey
               = Some (VObject ∅)).
  { autorewrite with common.
    rewrite loop_reserved; rewrite reservedWith_sourceLocation, Hhc, Hc;
      [| by eauto]. simpl.
    unfold Part000.callerVals. by rewrite Hp2, Hr2. }
  assert (H0 : ∀ pp depth, json.render pp depth (VObject ∅) = json.Ok "{}")
    by (by intros [p|] depth).
  repeat split; try done; intros out Hout.
  - destruct (encodeData_member _ _ _ _ _ _ Hout H1) as (t & Ht & Hcont).
    rewrite H0 in Ht. by injection Ht as <-.
  - destruct (encodeData_member _ _ _ _ _ _ Hout H2) as (t & Ht & Hcont).
    rewrite H0 in Ht. by injection Ht as <-.
Qed.

Lemma source_location_kept_when_empty_witness :
  FormatterGo.document Examples.goHide Examples.request
    (map_to_list (Data Examples.request)) !! sourceLocationKey
  = Some (VObject ∅).
Proof.
  destruct (source_location_kept_when_empty Examples.goHide Examples.p0Hide
              Examples.request (map_to_list (Data Examples.request))
              Examples.frame Examples.hide Examples.hide)
    as (Hgo & _); [reflexivity .. |].
  exact Hgo.
Defined.



(** Counterexample to C7 as the claim has it: with [DisableTimestamp] and a
    field named [timestamp], the document has the key [timestamp], with the
    user's value, and the bytes hold the text.  In both revisions. *)
Lemma timestamp_off_field_named_timestamp :
  FormatterGo.DisableTimestamp Examples.goNoTimestamp = true
  ∧ Part000.DisableTimestamp Examples.p0NoTimestamp = true
  ∧ rangeOrder (Data Examples.timestampField)
               (Examples.order Examples.timestampField)
  ∧ FormatterGo.document Examples.goNoTimestamp Examples.timestampField
      (Examples.order Examples.timestampField) !! "timestamp"
    = Some (VString "right now!")
  ∧ Part000.document Examples.p0NoTimestamp Examples.timestampField
      (Examples.order Examples.timestampField) !! "timestamp"
    = Some (VString "right now!")
  ∧ (∃ out, bytes (FormatterGo.Format Examples.goNoTimestamp
                     Examples.timestampField
                     (Examples.order Examples.timestampField)) = Some out
            ∧ Contains out "timestamp" = true)
  ∧ (∃ out, bytes (Part000.Format Examples.p0NoTimestamp
                     Examples.timestampField
                     (Examples.order Examples.timestampField)) = Some out
            ∧ Contains out "timestamp" = true).
Proof.
  repeat split; try apply rangeOrder_map_to_list; try (by vm_compute);
    eexists; split; by vm_compute.
Qed.

(** C7, amended. With [DisableTimestamp], [Format] sets no [timestamp] key
    of its own: the document has the key exactly when the entry has a field
    of that name, and it then holds the value stored for that field.
    Without [DisableTimestamp] the document always has the key, and its
    value is the map of [seconds], the Unix time of the entry, and [nanos],
    the nanoseconds of it.  In both revisions. *)
Theorem timestamp_key
    (f1 : FormatterGo.Formatter) (f2 : Part000.Formatter)
    (entry : Entry) (order : list (string * value)) :
  rangeOrder (Data entry) order →
  FormatterGo.document f1 entry order !! "timestamp"
  = (if FormatterGo.DisableTimestamp f1
     then FormatterGo.typeSwitch <$> Data entry !! "timestamp"
     else Some (VObject {[ "seconds" := VInt (time.Unix (Time entry));
                           "nanos" := VInt (time.Nanosecond (Time entry)) ]}))
  ∧ Part000.document f2 entry order !! "timestamp"
    = (if Part000.DisableTimestamp f2
       then Part000.typeSwitch <$> Data entry !! "timestamp"
       else Some (VObject {[ "seconds" := VInt (time.Unix (Time entry));
                             "nanos" := VInt (time.Nanosecond (Time entry)) ]})).
Proof.
  intros Hord. autorewrite with common. split.
  - destruct (FormatterGo.DisableTimestamp f1) eqn:Hd.
    + apply rangeData_unreserved; [done | | | ].
      * intros r k'. apply reservedWith_not_fields.
      * by rewrite reservedWith_timestamp.
      * intros k0 H. by simplify_eq/=.
    + rewrite loop_reserved; rewrite reservedWith_timestamp; by eauto.
  - destruct (Part000.DisableTimestamp f2) eqn:Hd.
    + apply rangeData_unreserved; [done | | | ].
      * intros r k'. apply reservedWith_not_fields.
      * by rewrite reservedWith_timestamp.
      * intros k0 H. by simplify_eq/=.
    + rewrite loop_reserved; rewrite reservedWith_timestamp; by eauto.
Qed.

Lemma timestamp_key_witness :
  FormatterGo.document Examples.goNoTimestamp Examples.request
    (map_to_list (Data Examples.request)) !! "timestamp" = None
  ∧ Part000.document Examples.p0 Examples.request
      (map_to_list (Data Examples.request)) !! "timestamp"
    = Some (VObject {[ "seconds" := VInt 1600000000; "nanos" := VInt 42 ]}).
Proof.
  apply (timestamp_key Examples.goNoTimestamp Examples.p0 Examples.request).
  apply rangeOrder_map_to_list.
Defined.

(** Counterexample to C4 as the claim has it, in src/formatter.go: an error
    that is also a [json.Marshaler] is stored as its message, and what its
    [MarshalJSON] gives is not in the bytes. *)
Lemma marshaler_error_stored_as_message :
  isError Examples.codedError = true
  ∧ isMarshaler Examples.codedError = true
  ∧ rangeOrder (Data Examples.codedEntry) (Examples.order Examples.codedEntry)
  ∧ Data Examples.codedEntry !! "error" = Some Examples.codedError
  ∧ FormatterGo.document Examples.go Examples.codedEntry
      (Examples.order Examples.codedEntry) !! "error"
    = Some (VString "wild walrus")
  ∧ FormatterGo.document Examples.go Examples.codedEntry
      (Examples.order Examples.codedEntry) !! "error"
    ≠ Some Examples.codedError
  ∧ ∃ out, bytes (FormatterGo.Format Examples.go Examples.codedEntry
                    (Examples.order Examples.codedEntry)) = Some out
           ∧ Contains out "wild walrus" = true
           ∧ Contains out "code" = false.
Proof.
  repeat split; try apply rangeOrder_map_to_list; try (by vm_compute).
  eexists. repeat split; by vm_compute.
Qed.

(** C4, amended. For a field whose value is an error: the iteration of the
    loop on it stores, under the key it chooses, in src/formatter.go the
    message of the error, whether or not it is a [json.Marshaler]; in
    src/unnamed/part_000 the value itself when it is a [json.Marshaler] and
    the message otherwise.  When the name of the field is not [fields.]
    followed by the name of another field, that is what the document holds
    when the loop is over, under the name of the field, or under it prefixed
    with [fields.] when it is a reserved key. *)
Theorem error_values_stored
    (f1 : FormatterGo.Formatter) (f2 : Part000.Formatter)
    (entry : Entry) (order : list (string * value))
    (k ty msg : string) (mj : option (value + string)) :
  rangeOrder (Data entry) order →
  Data entry !! k = Some (VError ty msg mj) →
  (∀ l1 l2, order = l1 ++ (k, VError ty msg mj) :: l2 →
     rangeData FormatterGo.typeSwitch (FormatterGo.reserved f1 entry)
               (l1 ++ [(k, VError ty msg mj)])
       !! fieldKey (rangeData FormatterGo.typeSwitch
                              (FormatterGo.reserved f1 entry) l1) k
     = Some (VString msg)
     ∧ rangeData Part000.typeSwitch (Part000.reserved f2 entry)
                 (l1 ++ [(k, VError ty msg mj)])
         !! fieldKey (rangeData Part000.typeSwitch
                                (Part000.reserved f2 entry) l1) k
       = Some (if isMarshaler (VError ty msg mj)
               then VError ty msg mj else VString msg))
  ∧ ((∀ k0, is_Some (Data entry !! k0) → k ≠ "fields." +:+ k0) →
     FormatterGo.document f1 entry order
       !! fieldKey (FormatterGo.reserved f1 entry) k
     = Some (VString msg)
     ∧ Part000.document f2 entry order
         !! fieldKey (Part000.reserved f2 entry) k
       = Some (if isMarshaler (VError ty msg mj)
               then VError ty msg mj else VString msg)).
Proof.
  intros Hord Hk.
  assert (H2 : Part000.typeSwitch (VError ty msg mj)
               = if isMarshaler (VError ty msg mj)
                 then VError ty msg mj else VString msg)
    by (by destruct mj).
  rewrite <- H2. split.
  - intros l1 l2 _.
    rewrite !rangeData_app, !rangeData_cons. cbn [fst snd rangeData foldl].
    by rewrite !lookup_insert_eq.
  - intros Hfree. autorewrite with common. split.
    + by apply (loop_emitted _ _ _ FormatterGo.typeSwitch order k
                  (VError ty msg mj)); auto.
    + by apply loop_emitted; auto.
Qed.

Lemma error_values_stored_witness :
  FormatterGo.document Examples.go Examples.request
    (map_to_list (Data Examples.request)) !! "error"
  = Some (VString "wild walrus")
  ∧ Part000.document Examples.p0 Examples.request
      (map_to_list (Data Examples.request)) !! "error"
    = Some (VString "wild walrus").
Proof.
  destruct (error_values_stored Examples.go Examples.p0 Examples.request
              (map_to_list (Data Examples.request))
              "error" "*errors.errorString" "wild walrus" None)
    as [_ Hdoc].
  - apply rangeOrder_map_to_list.
  - by vm_compute.
  - apply Hdoc. intros k0 _ H. by simplify_eq/=.
Defined.

(** C8. [Format] returns an error if and only if the encoder fails on the
    document; the error is then the fixed prefix followed by the encoder's
    error and the bytes are nil, and without an error there are bytes.
    Nothing else fails: when the value stored for each field of the entry is
    one the encoder accepts, [Format] returns no error, whatever the level,
    the caller, the time, the message and the configuration.  In both
    revisions. *)
Theorem error_iff_encoding_fails
    (f1 : FormatterGo.Formatter) (f2 : Part000.Formatter)
    (entry : Entry) (order : list (string * value)) :
  rangeOrder (Data entry) order →
  (errorRule (FormatterGo.PrettyPrint f1)
             (FormatterGo.document f1 entry order)
             (FormatterGo.Format f1 entry order)
   ∧ ((∀ k v, Data entry !! k = Some v →
              renders (indentOf (FormatterGo.PrettyPrint f1))
                      (FormatterGo.typeSwitch v)) →
      err (FormatterGo.Format f1 entry order) = None))
  ∧ (errorRule (Part000.PrettyPrint f2)
               (Part000.document f2 entry order)
               (Part000.Format f2 entry order)
     ∧ ((∀ k v, Data entry !! k = Some v →
                renders (indentOf (Part000.PrettyPrint f2))
                        (Part000.typeSwitch v)) →
        err (Part000.Format f2 entry order) = None)).
Proof.
  intros Hord. split; (split; [apply encodeData_errorRule |]); intros Hf.
  - destruct (loop_renders (FormatterGo.DisableTimestamp f1)
                (FormatterGo.callerVals f1) entry _ _ order Hord Hf)
      as [text Hr].
    unfold FormatterGo.Format. rewrite document_go.
    by rewrite (encodeData_Ok _ _ _ _ Hr).
  - destruct (loop_renders (Part000.DisableTimestamp f2)
                (Part000.callerVals f2) entry _ _ order Hord Hf)
      as [text Hr].
    unfold Part000.Format. rewrite document_p0.
    by rewrite (encodeData_Ok _ _ _ _ Hr).
Qed.

Lemma error_iff_encoding_fails_witness :
  err (FormatterGo.Format Examples.go
         (Examples.WithField "ch" (VUnsupported "chan int"))
         [("ch", VUnsupported "chan int")])
  = Some "failed to marshal fields to JSON, json: unsupported type: chan int".
Proof.
  destruct (error_iff_encoding_fails Examples.go Examples.p0
              (Examples.WithField "ch" (VUnsupported "chan int"))
              [("ch", VUnsupported "chan int")])
    as [[(Hiff & _ & _) _] _].
  - unfold rangeOrder. by vm_compute.
  - apply Hiff. eexists. split; by vm_compute.
Defined.

(** C9. With a buffer in the entry, [Format] writes to it and only at its
    end: afterwards it holds the bytes it held, unchanged, followed by what
    the encoder wrote, and these are the bytes returned.  Without one the
    bytes returned are what the encoder wrote to a buffer that starts empty.
    In both revisions. *)
Theorem buffer_only_appended_to
    (f1 : FormatterGo.Formatter) (f2 : Part000.Formatter)
    (entry : Entry) (order : list (string * value)) :
  bufferRule (FormatterGo.PrettyPrint f1) entry
             (FormatterGo.document f1 entry order)
             (FormatterGo.Format f1 entry order)
  ∧ bufferRule (Part000.PrettyPrint f2) entry
               (Part000.document f2 entry order)
               (Part000.Format f2 entry order).
Proof. split; apply encodeData_bufferRule. Qed.

Lemma buffer_only_appended_to_witness :
  ∃ added,
    entryBuffer (FormatterGo.Format Examples.go Examples.request
                   (map_to_list (Data Examples.request)))
    = Some ("old" +:+ added)
    ∧ bytes (FormatterGo.Format Examples.go Examples.request
               (map_to_list (Data Examples.request)))
      = Some ("old" +:+ added).
Proof.
  destruct (buffer_only_appended_to Examples.go Examples.p0 Examples.request
              (map_to_list (Data Examples.request))) as [[Hbuf Hbytes] _].
  eexists. split; [exact Hbuf |].
  destruct (bytes _) as [o|] eqn:Ho; [| by vm_compute in Ho].
  by rewrite (Hbytes o).
Defined.

(** C3 fails on the code.  The entry has the fields [message] and
    [fields.message].  When the loop meets [fields.message] first, it stores
    it under its own name, and then stores [message] over it: the value of
    [fields.message] is in no key of the document and nowhere in the bytes.
    When the loop meets [message] first, both values are kept, the second
    under [fields.fields.message].  Both orders are orders of the same map:
    the output depends on the order Go happens to take.  In both
    revisions. *)
Theorem renamed_field_overwrites_field :
  rangeOrder (Data Examples.clash) Examples.renamedLast
  ∧ rangeOrder (Data Examples.clash) Examples.renamedFirst
  ∧ Data Examples.clash !! "message" = Some (VString "mine")
  ∧ Data Examples.clash !! "fields.message" = Some (VString "other")
  ∧ (FormatterGo.document Examples.go Examples.clash Examples.renamedLast
       !! "fields.message" = Some (VString "mine")
     ∧ (∀ k, FormatterGo.document Examples.go Examples.clash
               Examples.renamedLast !! k ≠ Some (VString "other"))
     ∧ ∃ out, bytes (FormatterGo.Format Examples.go Examples.clash
                       Examples.renamedLast) = Some out
              ∧ Contains out "other" = false)
  ∧ (Part000.document Examples.p0 Examples.clash Examples.renamedLast
       !! "fields.message" = Some (VString "mine")
     ∧ (∀ k, Part000.document Examples.p0 Examples.clash
               Examples.renamedLast !! k ≠ Some (VString "other"))
     ∧ ∃ out, bytes (Part000.Format Examples.p0 Examples.clash
                       Examples.renamedLast) = Some out
              ∧ Contains out "other" = false)
  ∧ (FormatterGo.document Examples.go Examples.clash Examples.renamedFirst
       !! "fields.message" = Some (VString "mine")
     ∧ FormatterGo.document Examples.go Examples.clash Examples.renamedFirst
         !! "fields.fields.message" = Some (VString "other"))
  ∧ (Part000.document Examples.p0 Examples.clash Examples.renamedFirst
       !! "fields.message" = Some (VString "mine")
     ∧ Part000.document Examples.p0 Examples.clash Examples.renamedFirst
         !! "fields.fields.message" = Some (VString "other")).
Proof.
  assert (Hnone : ∀ (doc : gmap string value) l,
            map_to_list doc = l →
            Forall (λ kv, kv.2 ≠ VString "other") l →
            ∀ k, doc !! k ≠ Some (VString "other")).
  { intros doc l <- Hall k Hk. apply elem_of_map_to_list in Hk.
    by apply (proj1 (Forall_forall _ _) Hall _ Hk). }
  repeat split; try (by vm_compute).
  - unfold rangeOrder. vm_compute. apply perm_swap.
  - eapply Hnone; [by vm_compute |]. by repeat constructor.
  - eexists. split; by vm_compute.
  - eapply Hnone; [by vm_compute |]. by repeat constructor.
  - eexists. split; by vm_compute.
Qed.

(** Without a field named [fields.] followed by the name of another field,
    no value is lost, whatever the order of the loop: each field has a key
    of its own in the document, [fields.] before its name when the name is
    a reserved key, which holds the value stored for it, and the reserved
    keys hold what [Format] gave them.  In both revisions. *)
Theorem fields_kept_without_renamed_names
    (f1 : FormatterGo.Formatter) (f2 : Part000.Formatter)
    (entry : Entry) (order : list (string * value)) :
  rangeOrder (Data entry) order →
  (∀ k k0, is_Some (Data entry !! k) → is_Some (Data entry !! k0) →
           k ≠ "fields." +:+ k0) →
  ((∀ k v, Data entry !! k = Some v →
      FormatterGo.document f1 entry order
        !! fieldKey (FormatterGo.reserved f1 entry) k
      = Some (FormatterGo.typeSwitch v)
      ∧ FormatterGo.reserved f1 entry
          !! fieldKey (FormatterGo.reserved f1 entry) k = None)
   ∧ (∀ k1 k2, is_Some (Data entry !! k1) → is_Some (Data entry !! k2) →
        fieldKey (FormatterGo.reserved f1 entry) k1
        = fieldKey (FormatterGo.reserved f1 entry) k2 → k1 = k2)
   ∧ (∀ r, is_Some (FormatterGo.reserved f1 entry !! r) →
        FormatterGo.document f1 entry order !! r
        = FormatterGo.reserved f1 entry !! r))
  ∧ ((∀ k v, Data entry !! k = Some v →
        Part000.document f2 entry order
          !! fieldKey (Part000.reserved f2 entry) k
        = Some (Part000.typeSwitch v)
        ∧ Part000.reserved f2 entry
            !! fieldKey (Part000.reserved f2 entry) k = None)
     ∧ (∀ k1 k2, is_Some (Data entry !! k1) → is_Some (Data entry !! k2) →
          fieldKey (Part000.reserved f2 entry) k1
          = fieldKey (Part000.reserved f2 entry) k2 → k1 = k2)
     ∧ (∀ r, is_Some (Part000.reserved f2 entry !! r) →
          Part000.document f2 entry order !! r
          = Part000.reserved f2 entry !! r)).
Proof.
  intros Hord Hfree. autorewrite with common.
  split;
    (split; [| split];
     [ by apply loop_lossless | by eapply loop_lossless
     | intros r Hr; by apply loop_reserved ]).
Qed.

(** * The tests of the repository

    The tests of the README decode the bytes and look at the keys: here
    they look at the document that was encoded. *)

Example TestErrorNotLost :
  Examples.document
    (Examples.WithField "error"
       (VError "*errors.errorString" "wild walrus" None)) !! "error"
  = Some (VString "wild walrus").
Proof. by vm_compute. Qed.

Example TestErrorNotLostOnFieldNotNamedError :
  Examples.document
    (Examples.WithField "omg"
       (VError "*errors.errorString" "wild walrus" None)) !! "omg"
  = Some (VString "wild walrus").
Proof. by vm_compute. Qed.

Example TestFieldClashWithTime :
  Examples.document (Examples.WithField "timestamp" (VString "right now!"))
    !! "fields.timestamp" = Some (VString "right now!")
  ∧ Examples.document (Examples.WithField "timestamp" (VString "right now!"))
      !! "timestamp" = Some (timestampValue Examples.zeroTime).
Proof. by vm_compute. Qed.

Example TestFieldClashWithMsg :
  Examples.document (Examples.WithField "message" (VString "something"))
    !! "fields.message" = Some (VString "something").
Proof. by vm_compute. Qed.

Example TestFieldClashWithLevel :
  Examples.document (Examples.WithField "level" (VString "something"))
    !! "fields.level" = Some (VString "something").
Proof. by vm_compute. Qed.

Example TestJSONEntryEndsWithNewline :
  endsWithOneNewline
    (Examples.output Examples.go
       (Examples.WithField "level" (VString "something")))
  = true.
Proof. by vm_compute. Qed.

Example TestFieldDoesNotClashWithCaller :
  Examples.document (Examples.WithField "func" (VString "howdy pardner"))
    !! "func" = Some (VString "howdy pardner").
Proof. by vm_compute. Qed.

Example TestFieldClashWithCaller :
  Examples.document Examples.callerEntry !! ("fields." +:+ sourceLocationKey)
  = Some (VString "howdy pardner")
  ∧ Examples.document Examples.callerEntry !! sourceLocationKey
    = Some (VObject {[ "function" := VString "somefunc" ]}).
Proof. by vm_compute. Qed.

Example TestJSONDisableTimestamp :
  Contains
    (Examples.output Examples.goNoTimestamp
       (Examples.WithField "level" (VString "something")))
    log.FieldKeyTime
  = false.
Proof. by vm_compute. Qed.

Example TestJSONEnableTimestamp :
  Contains
    (Examples.output Examples.go
       (Examples.WithField "level" (VString "something")))
    log.FieldKeyTime
  = true.
Proof. by vm_compute. Qed.

(** [TrimFilenamePrefix] in src/unnamed/part_000: the prefix is taken off
    the file name, and a prettyfier, given the frame, puts it back. *)
Example TrimFilenamePrefix_trims :
  Part000.callerVals
    {| Part000.DisableTimestamp := false;
       Part000.CallerPrettyfier := None;
       Part000.TrimFilenamePrefix := "/src/";
       Part000.PrettyPrint := false |} Examples.frame
  = ("main.handler", "app/main.go")
  ∧ Part000.callerVals
      {| Part000.DisableTimestamp := false;
         Part000.CallerPrettyfier :=
           Some (λ frame, (runtime.Function frame, runtime.File frame));
         Part000.TrimFilenamePrefix := "/src/";
         Part000.PrettyPrint := false |} Examples.frame
    = ("main.handler", "/src/app/main.go").
Proof. by vm_compute. Qed.

(** * More of [Format] *)

Section range_more.
Context (conv : value → value).

Lemma fieldKey_cases (data : gmap string value) k :
  fieldKey data k = k ∨ fieldKey data k = "fields." +:+ k.
Proof. unfold fieldKey. case_bool_decide; auto. Qed.

Lemma fieldKey_insert_ne (data : gmap string value) K x k :
  k ≠ K → fieldKey (<[K := x]> data) k = fieldKey data k.
Proof. intros Hne. unfold fieldKey. by rewrite lookup_insert_ne. Qed.

(** Where a key of the map after the loop comes from. *)
Lemma rangeData_provenance l : ∀ (data : gmap string value) K x,
  rangeData conv data l !! K = Some x →
  data !! K = Some x
  ∨ ∃ kv, kv ∈ l ∧ x = conv kv.2 ∧ (K = kv.1 ∨ K = "fields." +:+ kv.1).
Proof.
  induction l as [|kv l IH]; intros data K x H; [by left |].
  rewrite rangeData_cons in H. apply IH in H as [H | (kv' & Hin & Hx)].
  - apply lookup_insert_Some in H as [[HK <-] | [_ H]]; [right | by left].
    exists kv. split; [left |]. split; [done |].
    rewrite <- HK. apply fieldKey_cases.
  - right. exists kv'. split; [by right | done].
Qed.

Lemma rangeData_size l : ∀ (data : gmap string value),
  size (rangeData conv data l) ≤ size data + List.length l.
Proof.
  induction l as [|kv l IH]; intros data; [simpl; lia |].
  rewrite rangeData_cons. cbn [List.length]. etrans; [apply IH |].
  pose proof (map_size_insert (fieldKey data kv.1) (conv kv.2) data) as Hs.
  destruct (data !! fieldKey data kv.1); unfold id in Hs; lia.
Qed.

Lemma rangeData_ext (conv' : value → value) l : ∀ (data : gmap string value),
  Forall (λ kv, conv kv.2 = conv' kv.2) l →
  rangeData conv data l = rangeData conv' data l.
Proof.
  induction l as [|kv l IH]; intros data Hall; [done |].
  apply Forall_cons in Hall as [Hkv Hall].
  rewrite !rangeData_cons, Hkv. by apply IH.
Qed.

(** Without a field named as the renaming of another, the loop is one
    insertion for each field, under a key that depends on the map it starts
    from only. *)
Lemma rangeData_safe (sys : gmap string value) l : ∀ (data : gmap string value),
  NoDup l.*1 →
  (∀ kv kv', kv ∈ l → kv' ∈ l → kv.1 ≠ "fields." +:+ kv'.1) →
  (∀ r k', is_Some (sys !! r) → r ≠ "fields." +:+ k') →
  (∀ kv, kv ∈ l → fieldKey data kv.1 = fieldKey sys kv.1) →
  rangeData conv data l
  = list_to_map (map (λ kv, (fieldKey sys kv.1, conv kv.2)) l) ∪ data.
Proof.
  induction l as [|kv l IH]; intros data Hnd Hsafe Hsys Hinv.
  { simpl. by rewrite (left_id_L ∅ (∪)). }
  apply NoDup_cons in Hnd as [Hkv Hnd].
  rewrite rangeData_cons, IH; try done.
  - rewrite (Hinv kv) by left. simpl.
    rewrite <- insert_union_l. symmetry. apply insert_union_r.
    apply not_elem_of_list_to_map. rewrite <- list_fmap_compose.
    intros ([k' v'] & Heq & Hin)%list_elem_of_fmap. simpl in Heq.
    assert (k' = kv.1) as ->; [| apply Hkv, list_elem_of_fmap;
                                   by exists (kv.1, v')].
    unfold fieldKey in Heq. repeat case_bool_decide.
    + symmetry. by apply fields_prefix_inj.
    + exfalso. symmetry in Heq. revert Heq.
      apply (Hsafe (k', v') kv); [by right | left].
    + exfalso. revert Heq. apply (Hsafe kv (k', v')); [left | by right].
    + done.
  - intros kv1 kv2 H1 H2. apply Hsafe; by right.
  - intros kv' Hin. rewrite fieldKey_insert_ne; [apply Hinv; by right |].
    rewrite (Hinv kv) by left. intros Heq.
    destruct (fieldKey_cases sys kv.1) as [Hc | Hc]; rewrite Hc in Heq.
    + apply Hkv, list_elem_of_fmap. by exists kv'.
    + revert Heq. apply (Hsafe kv' kv); [by right | left].
Qed.
End range_more.

Section reserved_more.
Context (d : bool) (vals : runtime.Frame → string * string) (entry : Entry).
#[local] Abbreviation sys' := (reservedWith d vals entry).

Lemma reservedWith_size : size sys' = reservedCount d (HasCaller entry).
Proof.
  unfold reservedWith, reservedCount.
  destruct (HasCaller entry) eqn:Hhc;
    [destruct (HasCaller_Caller entry Hhc) as [caller ->];
     destruct (vals caller) |];
    destruct d; simpl;
    rewrite ?map_size_insert_None, ?map_size_empty; by simplify_map_eq.
Qed.

Lemma reservedWith_ext (vals' : runtime.Frame → string * string) :
  (∀ caller, Caller entry = Some caller → vals caller = vals' caller) →
  sys' = reservedWith d vals' entry.
Proof.
  intros H. unfold reservedWith.
  destruct (HasCaller entry); [| done].
  destruct (Caller entry) as [caller|]; [| done]. by rewrite (H caller).
Qed.

Context (conv : value → value).

Lemma loop_subseteq order : sys' ⊆ rangeData conv sys' order.
Proof.
  apply map_subseteq_spec. intros r x Hr.
  apply rangeData_preserved; [done |].
  apply Forall_forall. intros kv _.
  apply (reservedWith_not_fields d vals entry). by eexists.
Qed.

Lemma loop_size order :
  rangeOrder (Data entry) order →
  reservedCount d (HasCaller entry) ≤ size (rangeData conv sys' order)
  ∧ size (rangeData conv sys' order)
    ≤ reservedCount d (HasCaller entry) + size (Data entry).
Proof.
  intros Hord. rewrite <- reservedWith_size. split.
  - apply map_subseteq_size, loop_subseteq.
  - etrans; [apply rangeData_size |].
    rewrite Hord, length_map_to_list. lia.
Qed.

Lemma loop_provenance order K x :
  rangeOrder (Data entry) order →
  rangeData conv sys' order !! K = Some x →
  sys' !! K = Some x
  ∨ ∃ k v, Data entry !! k = Some v ∧ x = conv v
           ∧ (K = k ∨ K = "fields." +:+ k).
Proof.
  intros Hord [H | ([k v] & Hin & Hx & HK)]%rangeData_provenance; [by left |].
  right. exists k, v. split; [| done].
  rewrite Hord in Hin. by apply elem_of_map_to_list in Hin.
Qed.

Lemma loop_order_independent order1 order2 :
  rangeOrder (Data entry) order1 →
  rangeOrder (Data entry) order2 →
  noRenamedNames (Data entry) →
  rangeData conv sys' order1 = rangeData conv sys' order2.
Proof.
  intros H1 H2 Hsafe.
  assert (Hnd : ∀ order, rangeOrder (Data entry) order → NoDup order.*1).
  { intros order ->. apply NoDup_fst_map_to_list. }
  assert (Hdom : ∀ order kv, rangeOrder (Data entry) order → kv ∈ order →
                             is_Some (Data entry !! kv.1)).
  { intros order [k v] -> Hin. apply elem_of_map_to_list in Hin. by eexists. }
  assert (Hform : ∀ order, rangeOrder (Data entry) order →
            rangeData conv sys' order
            = list_to_map (map (λ kv, (fieldKey sys' kv.1, conv kv.2)) order)
              ∪ sys').
  { intros order Hord. apply rangeData_safe; [by apply Hnd | | | done].
    - intros kv kv' Hin Hin'. apply Hsafe; by eapply Hdom.
    - intros r k'. apply reservedWith_not_fields. }
  rewrite !Hform by done. f_equal. apply list_to_map_proper.
  - rewrite <- list_fmap_compose.
    apply (NoDup_fmap_2_strong _); [| by eapply NoDup_fmap_1, Hnd].
    intros [k1 v1] [k2 v2] Hin1 Hin2 Heq. simpl in Heq.
    assert (k1 = k2) as ->.
    { pose proof (Hdom _ _ H1 Hin1) as Hd1.
      pose proof (Hdom _ _ H1 Hin2) as Hd2. simpl in *.
      unfold fieldKey in Heq. repeat case_bool_decide; try done.
      - by apply fields_prefix_inj.
      - symmetry in Heq. by apply Hsafe in Heq.
      - by apply Hsafe in Heq. }
    f_equal. rewrite H1 in Hin1, Hin2.
    apply elem_of_map_to_list in Hin1, Hin2. congruence.
  - apply fmap_Permutation. by rewrite H1, H2.
Qed.
End reserved_more.

(** A check of [noRenamedNames] that computes. *)
Lemma noRenamedNames_check (fields : gmap string value) :
  Forall (λ k, Forall (λ k0, k ≠ "fields." +:+ k0) (map_to_list fields).*1)
         (map_to_list fields).*1 →
  noRenamedNames fields.
Proof.
  intros Hall k k0 [v Hk] [v0 Hk0].
  assert (Hin : ∀ k v, fields !! k = Some v → k ∈ (map_to_list fields).*1).
  { intros k' v' H. apply list_elem_of_fmap. exists (k', v').
    split; [done |]. by apply elem_of_map_to_list. }
  rewrite Forall_forall in Hall.
  specialize (Hall k (Hin k v Hk)). rewrite Forall_forall in Hall.
  by apply Hall, (Hin k0 v0).
Qed.

Lemma severity_table_aux
    (f1 : FormatterGo.Formatter) (f2 : Part000.Formatter)
    (entry : Entry) (order : list (string * value)) :
  FormatterGo.document f1 entry order !! "severity"
  = Some (VString (stackdriverLevel (Level entry)))
  ∧ Part000.document f2 entry order !! "severity"
    = Some (VString (stackdriverLevel (Level entry))).
Proof.
  autorewrite with common.
  split; rewrite loop_reserved; rewrite reservedWith_severity; by eauto.
Qed.

Lemma message_level_aux
    (f1 : FormatterGo.Formatter) (f2 : Part000.Formatter)
    (entry : Entry) (order : list (string * value)) :
  FormatterGo.document f1 entry order !! "level"
  = Some (VString (log.String (Level entry)))
  ∧ Part000.document f2 entry order !! "level"
    = Some (VString (log.String (Level entry))).
Proof.
  autorewrite with common.
  split; rewrite loop_reserved; rewrite reservedWith_level; by eauto.
Qed.



(** X2. The severity is a function of the name of the level: two levels
    logrus names alike get the same severity, and the severity is DEFAULT
    exactly for the levels logrus has no name for.  So in the document the
    [severity] key is DEFAULT exactly when the [level] key is unknown.  In
    both revisions. *)
Theorem severity_follows_level_name
    (f1 : FormatterGo.Formatter) (f2 : Part000.Formatter)
    (entry : Entry) (order : list (string * value)) (l1 l2 : log.Level) :
  (log.String l1 = log.String l2 → stackdriverLevel l1 = stackdriverLevel l2)
  ∧ (stackdriverLevel l1 = "DEFAULT" ↔ log.String l1 = "unknown")
  ∧ (FormatterGo.document f1 entry order !! "severity"
     = Some (VString "DEFAULT")
     ↔ FormatterGo.document f1 entry order !! "level"
       = Some (VString "unknown"))
  ∧ (Part000.document f2 entry order !! "severity" = Some (VString "DEFAULT")
     ↔ Part000.document f2 entry order !! "level"
       = Some (VString "unknown")).
Proof.
  assert (Hdef : ∀ l, stackdriverLevel l = "DEFAULT"
                      ↔ log.String l = "unknown").
  { intros [|p]; [done |].
    do 3 (destruct p as [p|p|]; try done). }
  split; [| split; [apply Hdef |]].
  - destruct l1 as [|p]; destruct l2 as [|q];
      repeat (try destruct p as [p|p|]; try destruct q as [q|q|]; try done).
  - destruct (severity_table_aux f1 f2 entry order) as [H1 H2].
    destruct (message_level_aux f1 f2 entry order) as [H3 H4].
    rewrite H1, H2, H3, H4. specialize (Hdef (Level entry)).
    split; (split; intros [= H]; f_equal; f_equal; by apply Hdef).
Qed.

Lemma severity_follows_level_name_witness :
  stackdriverLevel 7%N = stackdriverLevel 100%N.
Proof.
  destruct (severity_follows_level_name Examples.go Examples.p0
              Examples.request [] 7%N 100%N) as [Hname _].
  apply Hname. reflexivity.
Defined.

(** X3. A field whose name is no reserved key of the call and does not
    start with [fields.] is in the document under its own name, with the
    value stored for it; and a name of that kind that is no field of the
    entry is no key of the document.  So without a caller the source
    location key is an ordinary name, and with [DisableTimestamp] so is
    [timestamp].  Whatever the order of the loop, in both revisions. *)
Theorem ordinary_field_passes_through
    (f1 : FormatterGo.Formatter) (f2 : Part000.Formatter)
    (entry : Entry) (order : list (string * value)) (k : string) :
  rangeOrder (Data entry) order →
  (∀ k0, k ≠ "fields." +:+ k0) →
  (¬ reservedKey (FormatterGo.DisableTimestamp f1) (HasCaller entry) k →
   FormatterGo.document f1 entry order !! k
   = FormatterGo.typeSwitch <$> Data entry !! k)
  ∧ (¬ reservedKey (Part000.DisableTimestamp f2) (HasCaller entry) k →
     Part000.document f2 entry order !! k
     = Part000.typeSwitch <$> Data entry !! k).
Proof.
  intros Hord Hk. autorewrite with common.
  split; intros Hres; (apply rangeData_unreserved; [done | | | done]);
    try (intros r k'; apply reservedWith_not_fields);
    apply eq_None_not_Some; intros H; by apply reservedWith_dom in H.
Qed.

Lemma ordinary_field_passes_through_witness :
  FormatterGo.document Examples.go Examples.request
    (map_to_list (Data Examples.request)) !! "n" = Some (VInt 3).
Proof.
  destruct (ordinary_field_passes_through Examples.go Examples.p0
              Examples.request (map_to_list (Data Examples.request)) "n")
    as [Hgo _].
  - apply rangeOrder_map_to_list.
  - intros k0 H. by simplify_eq/=.
  - rewrite Hgo; [reflexivity |].
    unfold reservedKey, sourceLocationKey.
    intros [[H _] | [H | [H | [H | [H _]]]]]; by simplify_eq/=.
Defined.

(** X4. [Format] makes up no key and no value: whatever the document holds
    under a key is what [Format] gave a reserved key from the record, or
    the value stored for a field of the entry, under the name of the field
    or under it with [fields.] before.  In both revisions. *)
Theorem document_provenance
    (f1 : FormatterGo.Formatter) (f2 : Part000.Formatter)
    (entry : Entry) (order : list (string * value))
    (K : string) (x : value) :
  rangeOrder (Data entry) order →
  (FormatterGo.document f1 entry order !! K = Some x →
   FormatterGo.reserved f1 entry !! K = Some x
   ∨ ∃ k v, Data entry !! k = Some v ∧ x = FormatterGo.typeSwitch v
            ∧ (K = k ∨ K = "fields." +:+ k))
  ∧ (Part000.document f2 entry order !! K = Some x →
     Part000.reserved f2 entry !! K = Some x
     ∨ ∃ k v, Data entry !! k = Some v ∧ x = Part000.typeSwitch v
              ∧ (K = k ∨ K = "fields." +:+ k)).
Proof.
  intros Hord. autorewrite with common. split; by apply loop_provenance.
Qed.

Lemma document_provenance_witness :
  FormatterGo.reserved Examples.go Examples.request !! "n" = Some (VInt 3)
  ∨ ∃ k v, Data Examples.request !! k = Some v
           ∧ VInt 3 = FormatterGo.typeSwitch v
           ∧ ("n" = k ∨ "n" = "fields." +:+ k).
Proof.
  destruct (document_provenance Examples.go Examples.p0 Examples.request
              (map_to_list (Data Examples.request)) "n" (VInt 3))
    as [Hgo _].
  - apply rangeOrder_map_to_list.
  - apply Hgo. by vm_compute.
Defined.

(** X5. The document has the keys [Format] sets before the loop (three, one
    more with timestamps on, one more with a caller) and at most one more
    for each field of the entry: never more than the number of fields plus
    five, and never more than the number of fields plus four, the size the
    map is made with, unless timestamps are on and the entry has a caller.
    In both revisions. *)
Theorem document_size
    (f1 : FormatterGo.Formatter) (f2 : Part000.Formatter)
    (entry : Entry) (order : list (string * value)) :
  rangeOrder (Data entry) order →
  (reservedCount (FormatterGo.DisableTimestamp f1) (HasCaller entry)
   ≤ size (FormatterGo.document f1 entry order)
   ∧ size (FormatterGo.document f1 entry order)
     ≤ reservedCount (FormatterGo.DisableTimestamp f1) (HasCaller entry)
       + size (Data entry)
   ∧ size (FormatterGo.document f1 entry order) ≤ size (Data entry) + 5
   ∧ (FormatterGo.DisableTimestamp f1 = true ∨ HasCaller entry = false →
      size (FormatterGo.document f1 entry order) ≤ size (Data entry) + 4))
  ∧ (reservedCount (Part000.DisableTimestamp f2) (HasCaller entry)
     ≤ size (Part000.document f2 entry order)
     ∧ size (Part000.document f2 entry order)
       ≤ reservedCount (Part000.DisableTimestamp f2) (HasCaller entry)
         + size (Data entry)
     ∧ size (Part000.document f2 entry order) ≤ size (Data entry) + 5
     ∧ (Part000.DisableTimestamp f2 = true ∨ HasCaller entry = false →
        size (Part000.document f2 entry order) ≤ size (Data entry) + 4)).
Proof.
  intros Hord. autorewrite with common. split.
  - destruct (loop_size (FormatterGo.DisableTimestamp f1)
                (FormatterGo.callerVals f1) entry FormatterGo.typeSwitch
                order Hord) as [Hlo Hhi].
    unfold reservedCount in *.
    repeat split; try done;
      destruct (FormatterGo.DisableTimestamp f1), (HasCaller entry);
      try lia; intros [? | ?]; try done; lia.
  - destruct (loop_size (Part000.DisableTimestamp f2)
                (Part000.callerVals f2) entry Part000.typeSwitch
                order Hord) as [Hlo Hhi].
    unfold reservedCount in *.
    repeat split; try done;
      destruct (Part000.DisableTimestamp f2), (HasCaller entry);
      try lia; intros [? | ?]; try done; lia.
Qed.

Lemma document_size_witness :
  size (FormatterGo.document Examples.go Examples.request
          (map_to_list (Data Examples.request))) ≤ 3 + 5.
Proof.
  destruct (document_size Examples.go Examples.p0 Examples.request
              (map_to_list (Data Examples.request)))
    as [(_ & _ & H & _) _].
  - apply rangeOrder_map_to_list.
  - exact H.
Defined.

Lemma fields_kept_without_renamed_names_witness :
  FormatterGo.document Examples.go Examples.request
    (map_to_list (Data Examples.request)) !! "fields.message"
  = Some (VString "mine")
  ∧ FormatterGo.reserved Examples.go Examples.request !! "fields.message"
    = None.
Proof.
  destruct (fields_kept_without_renamed_names Examples.go Examples.p0
              Examples.request (map_to_list (Data Examples.request)))
    as [(Hkept & _ & _) _].
  - apply rangeOrder_map_to_list.
  - apply noRenamedNames_check, (bool_decide_unpack _). by vm_compute.
  - apply (Hkept "message" (VString "mine")). by vm_compute.
Defined.


(** X7. Without a field named [fields.] followed by the name of another
    field, the order the loop takes does not matter: any two orders give
    the same document, and [Format] the same bytes, error and buffer.  In
    both revisions. *)
Theorem order_irrelevant_without_renamed_names
    (f1 : FormatterGo.Formatter) (f2 : Part000.Formatter)
    (entry : Entry) (order1 order2 : list (string * value)) :
  rangeOrder (Data entry) order1 →
  rangeOrder (Data entry) order2 →
  noRenamedNames (Data entry) →
  FormatterGo.document f1 entry order1 = FormatterGo.document f1 entry order2
  ∧ FormatterGo.Format f1 entry order1 = FormatterGo.Format f1 entry order2
  ∧ Part000.document f2 entry order1 = Part000.document f2 entry order2
  ∧ Part000.Format f2 entry order1 = Part000.Format f2 entry order2.
Proof.
  intros H1 H2 Hsafe.
  assert (Hgo : FormatterGo.document f1 entry order1
                = FormatterGo.document f1 entry order2).
  { autorewrite with common. by apply loop_order_independent. }
  assert (Hp0 : Part000.document f2 entry order1
                = Part000.document f2 entry order2).
  { autorewrite with common. by apply loop_order_independent. }
  unfold FormatterGo.Format, Part000.Format. by rewrite Hgo, Hp0.
Qed.

Lemma order_irrelevant_without_renamed_names_witness :
  FormatterGo.Format Examples.go Examples.request
    (map_to_list (Data Examples.request))
  = FormatterGo.Format Examples.go Examples.request
      (reverse (map_to_list (Data Examples.request))).
Proof.
  destruct (order_irrelevant_without_renamed_names Examples.go Examples.p0
              Examples.request (map_to_list (Data Examples.request))
              (reverse (map_to_list (Data Examples.request))))
    as (_ & Hgo & _).
  - apply rangeOrder_map_to_list.
  - unfold rangeOrder. apply reverse_Permutation.
  - apply noRenamedNames_check, (bool_decide_unpack _). by vm_compute.
  - exact Hgo.
Defined.

Section encoder_errors.
Import json.

Lemma collect_Err {A} (l : list (string * result A)) e :
  collect l = Err e → ∃ k, (k, Err e) ∈ l.
Proof.
  induction l as [|[k r] l IH]; [done |]. simpl.
  destruct r as [a|e']; simpl.
  - destruct (collect l) as [fs|e'']; [done |]. simpl. intros [= ->].
    destruct IH as [k' Hin]; [done |]. exists k'. by right.
  - intros [= ->]. exists k. left.
Qed.

(** The error of an object is the error of one of its fields. *)
Lemma render_VObject_Err pp depth m e :
  render pp depth (VObject m) = Err e →
  ∃ k v, m !! k = Some v ∧ render pp (S depth) v = Err e.
Proof.
  rewrite render_VObject.
  destruct (collect _) as [fs|e'] eqn:Hc; [done |]. simpl. intros [= ->].
  apply collect_Err in Hc as [k Hin].
  unfold sortKeys in Hin. rewrite merge_sort_Permutation in Hin.
  apply elem_of_map_to_list in Hin. rewrite lookup_fmap in Hin.
  destruct (m !! k) as [v|] eqn:Hk; simplify_eq/=. by exists k, v.
Qed.
End encoder_errors.

(** X9. When [Format] fails, the error it returns is the fixed prefix and
    the encoder's error for the value of one field of the entry, never for
    what [Format] set itself.  In src/formatter.go that field is no error
    value; in src/unnamed/part_000 it is no error value or one that is a
    [json.Marshaler]. *)
Theorem error_names_a_field
    (f1 : FormatterGo.Formatter) (f2 : Part000.Formatter)
    (entry : Entry) (order : list (string * value)) (e : string) :
  rangeOrder (Data entry) order →
  (err (FormatterGo.Format f1 entry order) = Some e →
   ∃ k v je,
     Data entry !! k = Some v
     ∧ isError v = false
     ∧ json.render (indentOf (FormatterGo.PrettyPrint f1)) 1 v = json.Err je
     ∧ e = "failed to marshal fields to JSON, " +:+ json.Error je)
  ∧ (err (Part000.Format f2 entry order) = Some e →
     ∃ k v je,
       Data entry !! k = Some v
       ∧ (isError v = true → isMarshaler v = true)
       ∧ json.render (indentOf (Part000.PrettyPrint f2)) 1 v = json.Err je
       ∧ e = "failed to marshal fields to JSON, " +:+ json.Error je).
Proof.
  intros Hord. split; intros Herr.
  - destruct (encodeData_errorRule (FormatterGo.PrettyPrint f1) entry
                (FormatterGo.document f1 entry order)) as (Hiff & _ & _).
    apply Hiff in Herr as (je & Hr & ->).
    apply render_VObject_Err in Hr as (K & x & HK & Hx).
    rewrite document_go in HK.
    apply loop_provenance in HK; [| done].
    destruct HK as [HK | (k & v & Hk & -> & _)].
    + apply (reservedWith_renders _ _ _
               (indentOf (FormatterGo.PrettyPrint f1))) in HK as [t Ht].
      congruence.
    + exists k, v, je. by destruct v.
  - destruct (encodeData_errorRule (Part000.PrettyPrint f2) entry
                (Part000.document f2 entry order)) as (Hiff & _ & _).
    apply Hiff in Herr as (je & Hr & ->).
    apply render_VObject_Err in Hr as (K & x & HK & Hx).
    rewrite document_p0 in HK.
    apply loop_provenance in HK; [| done].
    destruct HK as [HK | (k & v & Hk & -> & _)].
    + apply (reservedWith_renders _ _ _
               (indentOf (Part000.PrettyPrint f2))) in HK as [t Ht].
      congruence.
    + exists k, v, je. destruct v as [| | | | | |ty msg [mj|]|]; try done.
Qed.

Lemma error_names_a_field_witness :
  ∃ k v je,
    Data (Examples.WithField "ch" (VUnsupported "chan int")) !! k = Some v
    ∧ isError v = false
    ∧ json.render None 1 v = json.Err je
    ∧ "failed to marshal fields to JSON, json: unsupported type: chan int"
      = "failed to marshal fields to JSON, " +:+ json.Error je.
Proof.
  destruct (error_names_a_field Examples.go Examples.p0
              (Examples.WithField "ch" (VUnsupported "chan int"))
              [("ch", VUnsupported "chan int")]
              "failed to marshal fields to JSON, json: unsupported type: chan int")
    as [Hgo _].
  - unfold rangeOrder. by vm_compute.
  - apply Hgo. by vm_compute.
Defined.

Lemma substring_all (s : string) : String.substring 0 (String.length s) s = s.
Proof. induction s as [|c s IH]; [done |]. simpl. by rewrite IH. Qed.

Lemma TrimPrefix_empty (s : string) : TrimPrefix s EmptyString = s.
Proof.
  unfold TrimPrefix. replace (String.prefix EmptyString s) with true
    by (by destruct s).
  simpl. rewrite Nat.sub_0_r. apply substring_all.
Qed.

(** X10. The two revisions agree where they can: with an empty
    [TrimFilenamePrefix] and the other settings alike, on an entry none of
    whose fields is an error that is also a [json.Marshaler], [Format] of
    src/unnamed/part_000 returns what [Format] of src/formatter.go
    returns. *)
Theorem revisions_agree
    (f1 : FormatterGo.Formatter) (f2 : Part000.Formatter)
    (entry : Entry) (order : list (string * value)) :
  rangeOrder (Data entry) order →
  Part000.DisableTimestamp f2 = FormatterGo.DisableTimestamp f1 →
  Part000.CallerPrettyfier f2 = FormatterGo.CallerPrettyfier f1 →
  Part000.PrettyPrint f2 = FormatterGo.PrettyPrint f1 →
  Part000.TrimFilenamePrefix f2 = EmptyString →
  (∀ k v, Data entry !! k = Some v → isMarshaler v = false) →
  Part000.document f2 entry order = FormatterGo.document f1 entry order
  ∧ Part000.Format f2 entry order = FormatterGo.Format f1 entry order.
Proof.
  intros Hord Hd Hp Hpp Ht Hm.
  assert (Hdoc : Part000.document f2 entry order
                 = FormatterGo.document f1 entry order).
  { autorewrite with common. rewrite Hd.
    rewrite (reservedWith_ext _ (Part000.callerVals f2) entry
               (FormatterGo.callerVals f1)).
    - apply rangeData_ext, Forall_forall. intros [k v] Hin.
      rewrite Hord in Hin. apply elem_of_map_to_list in Hin.
      apply Hm in Hin. simpl. by destruct v as [| | | | | |ty msg [mj|]|].
    - intros caller _. unfold Part000.callerVals, FormatterGo.callerVals.
      by rewrite Hp, Ht, TrimPrefix_empty. }
  split; [done |]. unfold Part000.Format, FormatterGo.Format.
  by rewrite Hdoc, Hpp.
Qed.

Lemma revisions_agree_witness :
  Part000.Format Examples.p0 Examples.request
    (map_to_list (Data Examples.request))
  = FormatterGo.Format Examples.go Examples.request
      (map_to_list (Data Examples.request)).
Proof.
  destruct (revisions_agree Examples.go Examples.p0 Examples.request
              (map_to_list (Data Examples.request))) as [_ Hsame].
  - apply rangeOrder_map_to_list.
  - reflexivity.
  - reflexivity.
  - reflexivity.
  - reflexivity.
  - intros k v Hk.
    assert (Hin : v ∈ (map_to_list (Data Examples.request)).*2).
    { apply list_elem_of_fmap. exists (k, v).
      split; [done |]. by apply elem_of_map_to_list. }
    vm_compute in Hin.
    repeat (apply elem_of_cons in Hin as [-> | Hin]; [reflexivity |]).
    by apply elem_of_nil in Hin.
  - exact Hsame.
Defined.

(** X11. In src/unnamed/part_000 a prettyfier undoes [TrimFilenamePrefix]:
    it is given the frame as the runtime made it, and what it returns is
    what is used.  With a prettyfier set, two formatters that differ in
    [TrimFilenamePrefix] only return the same. *)
Theorem prettyfier_overrides_trim
    (f f' : Part000.Formatter) (entry : Entry)
    (order : list (string * value)) :
  is_Some (Part000.CallerPrettyfier f) →
  Part000.CallerPrettyfier f' = Part000.CallerPrettyfier f →
  Part000.DisableTimestamp f' = Part000.DisableTimestamp f →
  Part000.PrettyPrint f' = Part000.PrettyPrint f →
  Part000.document f' entry order = Part000.document f entry order
  ∧ Part000.Format f' entry order = Part000.Format f entry order.
Proof.
  intros [p Hp] Hp' Hd Hpp.
  assert (Hdoc : Part000.document f' entry order
                 = Part000.document f entry order).
  { autorewrite with common. rewrite Hd. f_equal.
    apply reservedWith_ext. intros caller _.
    unfold Part000.callerVals. by rewrite Hp', Hp. }
  split; [done |]. unfold Part000.Format. by rewrite Hdoc, Hpp.
Qed.

Lemma prettyfier_overrides_trim_witness :
  Part000.Format
    {| Part000.DisableTimestamp := false;
       Part000.CallerPrettyfier := Some Examples.hide;
       Part000.TrimFilenamePrefix := EmptyString;
       Part000.PrettyPrint := true |}
    Examples.request (map_to_list (Data Examples.request))
  = Part000.Format Examples.p0Hide Examples.request
      (map_to_list (Data Examples.request)).
Proof.
  destruct (prettyfier_overrides_trim Examples.p0Hide
              {| Part000.DisableTimestamp := false;
                 Part000.CallerPrettyfier := Some Examples.hide;
                 Part000.TrimFilenamePrefix := EmptyString;
                 Part000.PrettyPrint := true |}
              Examples.request (map_to_list (Data Examples.request)))
    as [_ Hsame].
  - by eexists.
  - reflexivity.
  - reflexivity.
  - reflexivity.
  - exact Hsame.
Defined.

Lemma document_withBuffer_go f entry b order :
  FormatterGo.document f (withBuffer entry b) order
  = FormatterGo.document f entry order.
Proof. reflexivity. Qed.

Lemma document_withBuffer_p0 f entry b order :
  Part000.document f (withBuffer entry b) order
  = Part000.document f entry order.
Proof. reflexivity. Qed.

(** X12. Calls of [Format] on one buffer add up: when a call leaves the
    buffer of its entry to the next entry, the buffer holds afterwards what
    it held at first, then what the first call wrote, then what the second
    wrote, and a second call that succeeds returns all of it.  In both
    revisions. *)
Theorem successive_formats_append
    (f1 f1' : FormatterGo.Formatter) (f2 f2' : Part000.Formatter)
    (entry entry' : Entry) (order order' : list (string * value))
    (b : string) :
  Buffer entry = Some b →
  (entryBuffer
     (FormatterGo.Format f1'
        (withBuffer entry'
           (entryBuffer (FormatterGo.Format f1 entry order))) order')
   = Some (b +:+ written (FormatterGo.PrettyPrint f1)
                   (FormatterGo.document f1 entry order)
             +:+ written (FormatterGo.PrettyPrint f1')
                   (FormatterGo.document f1' entry' order'))
   ∧ ∀ o, bytes
            (FormatterGo.Format f1'
               (withBuffer entry'
                  (entryBuffer (FormatterGo.Format f1 entry order))) order')
          = Some o →
          o = b +:+ written (FormatterGo.PrettyPrint f1)
                      (FormatterGo.document f1 entry order)
                +:+ written (FormatterGo.PrettyPrint f1')
                      (FormatterGo.document f1' entry' order'))
  ∧ (entryBuffer
       (Part000.Format f2'
          (withBuffer entry'
             (entryBuffer (Part000.Format f2 entry order))) order')
     = Some (b +:+ written (Part000.PrettyPrint f2)
                     (Part000.document f2 entry order)
               +:+ written (Part000.PrettyPrint f2')
                     (Part000.document f2' entry' order'))
     ∧ ∀ o, bytes
              (Part000.Format f2'
                 (withBuffer entry'
                    (entryBuffer (Part000.Format f2 entry order))) order')
            = Some o →
            o = b +:+ written (Part000.PrettyPrint f2)
                        (Part000.document f2 entry order)
                  +:+ written (Part000.PrettyPrint f2')
                        (Part000.document f2' entry' order')).
Proof.
  intros Hb. split.
  - destruct (encodeData_bufferRule (FormatterGo.PrettyPrint f1) entry
                (FormatterGo.document f1 entry order)) as [H1 _].
    fold (FormatterGo.Format f1 entry order) in H1.
    rewrite Hb in H1. simpl in H1.
    destruct (encodeData_bufferRule (FormatterGo.PrettyPrint f1')
                (withBuffer entry'
                   (entryBuffer (FormatterGo.Format f1 entry order)))
                (FormatterGo.document f1' entry' order')) as [H2 H3].
    rewrite <- (document_withBuffer_go f1' entry'
                  (entryBuffer (FormatterGo.Format f1 entry order))) in H2, H3.
    fold (FormatterGo.Format f1'
            (withBuffer entry'
               (entryBuffer (FormatterGo.Format f1 entry order))) order')
      in H2, H3.
    rewrite document_withBuffer_go in H2, H3.
    simpl in H2, H3. rewrite H1 in H2, H3. simpl in H2, H3.
    rewrite H1, <- append_assoc. by split.
  - destruct (encodeData_bufferRule (Part000.PrettyPrint f2) entry
                (Part000.document f2 entry order)) as [H1 _].
    fold (Part000.Format f2 entry order) in H1.
    rewrite Hb in H1. simpl in H1.
    destruct (encodeData_bufferRule (Part000.PrettyPrint f2')
                (withBuffer entry'
                   (entryBuffer (Part000.Format f2 entry order)))
                (Part000.document f2' entry' order')) as [H2 H3].
    rewrite <- (document_withBuffer_p0 f2' entry'
                  (entryBuffer (Part000.Format f2 entry order))) in H2, H3.
    fold (Part000.Format f2'
            (withBuffer entry'
               (entryBuffer (Part000.Format f2 entry order))) order')
      in H2, H3.
    rewrite document_withBuffer_p0 in H2, H3.
    simpl in H2, H3. rewrite H1 in H2, H3. simpl in H2, H3.
    rewrite H1, <- append_assoc. by split.
Qed.

Lemma successive_formats_append_witness :
  ∃ w,
    bytes (FormatterGo.Format Examples.go
             (withBuffer Examples.request
                (entryBuffer
                   (FormatterGo.Format Examples.go Examples.request
                      (map_to_list (Data Examples.request)))))
             (map_to_list (Data Examples.request)))
    = Some ("old" +:+ w +:+ w).
Proof.
  destruct (successive_formats_append Examples.go Examples.go
              Examples.p0 Examples.p0 Examples.request Examples.request
              (map_to_list (Data Examples.request))
              (map_to_list (Data Examples.request)) "old")
    as [[_ Hbytes] _]; [reflexivity |].
  eexists.
  destruct (bytes _) as [o|] eqn:Ho; [| by vm_compute in Ho].
  by rewrite (Hbytes o).
Defined.

(** * [SourceFileLocation] *)

Section substrings.
Implicit Types s t u : string.

Lemma length_append s t :
  String.length (s +:+ t) = String.length s + String.length t.
Proof. induction s as [|c s IH]; [done |]. rewrite append_cons. simpl. lia. Qed.

Lemma substring_0_0 s : String.substring 0 0 s = EmptyString.
Proof. by destruct s. Qed.

Lemma substring_take s t :
  String.substring 0 (String.length s) (s +:+ t) = s.
Proof.
  induction s as [|c s IH]; [apply substring_0_0 |].
  rewrite append_cons. simpl. by rewrite IH.
Qed.

Lemma substring_drop s t n :
  String.substring (String.length s) n (s +:+ t) = String.substring 0 n t.
Proof. induction s as [|c s IH]; [done |]. by rewrite append_cons. Qed.

Lemma substring_take_drop s n :
  n ≤ String.length s →
  String.substring 0 n s
  +:+ String.substring n (String.length s - n) s = s.
Proof.
  revert n. induction s as [|c s IH]; intros [|n] Hn; simpl in *;
    try done; try lia.
  - by rewrite substring_all.
  - rewrite append_cons, IH; [done | lia].
Qed.

Lemma TrimPrefix_app s t : TrimPrefix (s +:+ t) s = t.
Proof.
  unfold TrimPrefix. rewrite prefix_append, length_append.
  replace (String.length s + String.length t - String.length s)
    with (String.length t) by lia.
  by rewrite substring_drop, substring_all.
Qed.

Lemma TrimSuffix_app s t : TrimSuffix (s +:+ t) t = s.
Proof.
  unfold TrimSuffix, HasSuffix. rewrite length_append.
  replace (String.length s + String.length t - String.length t)
    with (String.length s) by lia.
  rewrite substring_drop, substring_all, String.eqb_refl, andb_true_r.
  rewrite (proj2 (Nat.leb_le _ _)) by lia. apply substring_take.
Qed.

(** [TrimSuffix] returns the start of the string. *)
Lemma TrimSuffix_start s t : ∃ u, TrimSuffix s t +:+ u = s.
Proof.
  unfold TrimSuffix. destruct (HasSuffix s t).
  - eexists. apply substring_take_drop. lia.
  - exists EmptyString. apply append_nil_r.
Qed.
End substrings.

Section base.
Import path.
Implicit Types s t : string.

Lemma trimSlashes_noSlash s : noSlash s = true → trimSlashes s = s.
Proof.
  induction s as [|c s IH]; [done |]. simpl.
  intros [Hc Hs]%andb_true_iff. rewrite (IH Hs).
  apply negb_true_iff, bool_decide_eq_false in Hc.
  destruct s; [| done]. by rewrite bool_decide_eq_false_2.
Qed.

Lemma trimSlashes_app s t :
  noSlash t = true → t ≠ EmptyString → trimSlashes (s +:+ t) = s +:+ t.
Proof.
  intros Ht Hne. induction s as [|c s IH].
  - by apply trimSlashes_noSlash.
  - rewrite append_cons. simpl. rewrite IH.
    destruct (s +:+ t) eqn:Heq; [| done].
    destruct s; [| done]. by rewrite append_nil_l in Heq.
Qed.

Lemma lastSlash_noSlash s : noSlash s = true → lastSlash s = (-1)%Z.
Proof.
  induction s as [|c s IH]; [done |]. simpl.
  intros [Hc Hs]%andb_true_iff. rewrite (IH Hs). simpl.
  apply negb_true_iff, bool_decide_eq_false in Hc.
  by rewrite bool_decide_eq_false_2.
Qed.

Lemma lastSlash_app s t :
  (0 ≤ lastSlash t)%Z →
  lastSlash (s +:+ t) = (Z.of_nat (String.length s) + lastSlash t)%Z.
Proof.
  intros Ht. induction s as [|c s IH]; [done |].
  rewrite append_cons. cbn [lastSlash String.length]. rewrite IH.
  rewrite (proj2 (Z.leb_le _ _)) by lia. lia.
Qed.

(** The last element of a path that does not end with a slash. *)
Lemma Base_app dir name :
  noSlash name = true → name ≠ EmptyString →
  Base (dir +:+ String slash name) = name.
Proof.
  intros Hn Hne. unfold Base.
  rewrite bool_decide_eq_false_2 by (by destruct dir).
  replace (dir +:+ String slash name) with ((dir +:+ str1 slash) +:+ name)
    by (by rewrite append_assoc).
  rewrite trimSlashes_app by done.
  assert (Hl : lastSlash ((dir +:+ str1 slash) +:+ name)
               = Z.of_nat (String.length dir)).
  { assert (H0 : lastSlash (str1 slash +:+ name) = 0%Z).
    { change (str1 slash +:+ name) with (String slash name).
      cbn [lastSlash]. by rewrite (lastSlash_noSlash name Hn). }
    rewrite append_assoc, lastSlash_app; rewrite H0; lia. }
  rewrite Hl. rewrite (proj2 (Z.leb_le _ _)) by lia.
  replace (Z.to_nat (Z.of_nat (String.length dir) + 1))
    with (String.length (dir +:+ str1 slash))
    by (rewrite length_append; simpl; lia).
  rewrite substring_drop, length_append.
  replace (String.length (dir +:+ str1 slash) + String.length name
           - String.length (dir +:+ str1 slash))
    with (String.length name) by lia.
  rewrite substring_all. by rewrite bool_decide_eq_false_2.
Qed.

Lemma Base_noSlash s : noSlash s = true → s ≠ EmptyString → Base s = s.
Proof.
  intros Hs Hne. unfold Base.
  rewrite bool_decide_eq_false_2 by done.
  rewrite trimSlashes_noSlash, lastSlash_noSlash by done. simpl.
  by rewrite bool_decide_eq_false_2.
Qed.
End base.

Lemma SourceFileLocation_dir_aux (dir name : string) :
  noSlash name = true →
  name ≠ EmptyString →
  SourceFileLocation (dir +:+ String slash name) true = dir +:+ str1 slash.
Proof.
  intros Hn Hne. unfold SourceFileLocation. simpl. rewrite Base_app by done.
  replace (dir +:+ String slash name) with ((dir +:+ str1 slash) +:+ name)
    by (by rewrite append_assoc).
  apply TrimSuffix_app.
Qed.

Lemma file_prefix_aux
    (f : Part000.Formatter) (entry : Entry) (order : list (string * value))
    (caller : runtime.Frame) :
  Part000.CallerPrettyfier f = None →
  HasCaller entry = true →
  Caller entry = Some caller →
  ∃ l, Part000.document f entry order !! sourceLocationKey = Some (VObject l)
       ∧ ∀ rest, runtime.File caller = Part000.TrimFilenamePrefix f +:+ rest →
           suppressionRule (runtime.Function caller) rest
                           (runtime.Line caller) l.
Proof.
  intros Hp Hhc Hc. eexists. split.
  { autorewrite with common.
    rewrite loop_reserved; rewrite reservedWith_sourceLocation, Hhc, Hc;
      by eauto. }
  unfold Part000.callerVals. rewrite Hp. simpl.
  intros rest Hfile. rewrite Hfile, TrimPrefix_app.
  apply sourceLocation_rule.
Qed.

(** X13. For a file in a directory (a name with no slash after the last
    slash), [path.Base] is the name and [SourceFileLocation] returns what
    comes before it, the last slash included, as it is: the directory is
    not cleaned. *)
Theorem SourceFileLocation_directory (dir name : string) :
  noSlash name = true →
  name ≠ EmptyString →
  path.Base (dir +:+ String slash name) = name
  ∧ SourceFileLocation (dir +:+ String slash name) true = dir +:+ str1 slash.
Proof.
  intros Hn Hne. split; [by apply Base_app |].
  unfold SourceFileLocation. simpl. rewrite Base_app by done.
  replace (dir +:+ String slash name) with ((dir +:+ str1 slash) +:+ name)
    by (by rewrite append_assoc).
  apply TrimSuffix_app.
Qed.

Lemma SourceFileLocation_directory_witness :
  SourceFileLocation "/srv/../app//cmd/main.go" true = "/srv/../app//cmd/".
Proof.
  destruct (SourceFileLocation_directory "/srv/../app//cmd" "main.go")
    as [_ H]; [reflexivity | discriminate |].
  exact H.
Defined.

(** X14. [SourceFileLocation] returns the empty string when the runtime
    reports no caller, and also when the file has no slash in it. *)
Theorem SourceFileLocation_empty (file : string) :
  SourceFileLocation file false = EmptyString
  ∧ (noSlash file = true → SourceFileLocation file true = EmptyString).
Proof.
  split; [done |]. intros Hn. unfold SourceFileLocation. simpl.
  destruct (decide (file = EmptyString)) as [-> | Hne]; [done |].
  rewrite Base_noSlash by done.
  apply (TrimSuffix_app EmptyString file).
Qed.

Lemma SourceFileLocation_empty_witness :
  SourceFileLocation "main.go" true = EmptyString.
Proof.
  destruct (SourceFileLocation_empty "main.go") as [_ H].
  apply H. reflexivity.
Defined.

(** X15. What [SourceFileLocation] returns is always the start of the file:
    [strings.TrimPrefix] takes it off the file, and put back before what is
    left it gives the file again. *)
Theorem SourceFileLocation_is_prefix (file : string) (ok : bool) :
  String.prefix (SourceFileLocation file ok) file = true
  ∧ SourceFileLocation file ok
    +:+ TrimPrefix file (SourceFileLocation file ok) = file.
Proof.
  assert (H : ∃ u, SourceFileLocation file ok +:+ u = file).
  { unfold SourceFileLocation. destruct ok; simpl.
    - apply TrimSuffix_start.
    - by exists file. }
  destruct H as [u Hu]. revert Hu.
  generalize (SourceFileLocation file ok). intros start <-.
  by rewrite prefix_append, TrimPrefix_app.
Qed.

(** X16. In src/unnamed/part_000, without a prettyfier, the file of the
    caller goes out without [TrimFilenamePrefix] when it starts with it, and
    whole when it does not; when the prefix is the whole file name, nothing
    is left and [file] and [line] are left out. *)
Theorem file_prefix_trimmed
    (f : Part000.Formatter) (entry : Entry) (order : list (string * value))
    (caller : runtime.Frame) :
  Part000.CallerPrettyfier f = None →
  HasCaller entry = true →
  Caller entry = Some caller →
  ∃ l, Part000.document f entry order !! sourceLocationKey = Some (VObject l)
       ∧ (∀ rest, runtime.File caller = Part000.TrimFilenamePrefix f +:+ rest →
            suppressionRule (runtime.Function caller) rest
                            (runtime.Line caller) l)
       ∧ (String.prefix (Part000.TrimFilenamePrefix f) (runtime.File caller)
          = false →
          suppressionRule (runtime.Function caller) (runtime.File caller)
                          (runtime.Line caller) l)
       ∧ (runtime.File caller = Part000.TrimFilenamePrefix f →
          l !! "file" = None ∧ l !! "line" = None).
Proof.
  intros Hp Hhc Hc. eexists. split.
  { autorewrite with common.
    rewrite loop_reserved; rewrite reservedWith_sourceLocation, Hhc, Hc;
      by eauto. }
  unfold Part000.callerVals. rewrite Hp. simpl.
  pose proof (sourceLocation_rule (runtime.Function caller)
                (TrimPrefix (runtime.File caller)
                            (Part000.TrimFilenamePrefix f))
                (runtime.Line caller)) as Hrule.
  split; [| split].
  - intros rest Hfile. rewrite Hfile, TrimPrefix_app in Hrule.
    by rewrite Hfile, TrimPrefix_app.
  - intros Hnot. unfold TrimPrefix in *. by rewrite Hnot in *.
  - intros Hfile.
    assert (Hfile' : runtime.File caller
                     = Part000.TrimFilenamePrefix f +:+ EmptyString)
      by (by rewrite append_nil_r).
    rewrite Hfile', TrimPrefix_app in Hrule. rewrite Hfile', TrimPrefix_app.
    destruct Hrule as (_ & Hf & Hl & _). by split.
Qed.

Lemma file_prefix_trimmed_witness :
  ∃ l, Part000.document
         {| Part000.DisableTimestamp := false;
            Part000.CallerPrettyfier := None;
            Part000.TrimFilenamePrefix := "/src/";
            Part000.PrettyPrint := false |}
         Examples.request (map_to_list (Data Examples.request))
         !! sourceLocationKey = Some (VObject l)
       ∧ l !! "file" = Some (VString "app/main.go").
Proof.
  destruct (file_prefix_trimmed
              {| Part000.DisableTimestamp := false;
                 Part000.CallerPrettyfier := None;
                 Part000.TrimFilenamePrefix := "/src/";
                 Part000.PrettyPrint := false |}
              Examples.request (map_to_list (Data Examples.request))
              Examples.frame) as (l & Hl & Hrest & _).
  - reflexivity.
  - reflexivity.
  - reflexivity.
  - exists l. split; [exact Hl |].
    destruct (Hrest "app/main.go") as (_ & Hfile & _); [reflexivity |].
    exact Hfile.
Defined.

(** X17. [SourceFileLocation] does what it is for.  When a formatter of
    src/unnamed/part_000 has for [TrimFilenamePrefix] what
    [SourceFileLocation] returned for a file of a directory, and no
    prettyfier, a caller in a file under that directory goes out with the
    path of the file from the directory. *)
Theorem SourceFileLocation_makes_files_relative
    (f : Part000.Formatter) (entry : Entry) (order : list (string * value))
    (caller : runtime.Frame) (dir name rest : string) :
  noSlash name = true →
  name ≠ EmptyString →
  Part000.TrimFilenamePrefix f
  = SourceFileLocation (dir +:+ String slash name) true →
  Part000.CallerPrettyfier f = None →
  HasCaller entry = true →
  Caller entry = Some caller →
  runtime.File caller = dir +:+ String slash rest →
  ∃ l, Part000.document f entry order !! sourceLocationKey = Some (VObject l)
       ∧ suppressionRule (runtime.Function caller) rest
                         (runtime.Line caller) l.
Proof.
  intros Hn Hne Ht Hp Hhc Hc Hfile.
  pose proof (SourceFileLocation_dir_aux dir name Hn Hne) as Hdir.
  destruct (file_prefix_aux f entry order caller Hp Hhc Hc)
    as (l & Hl & Hrest).
  exists l. split; [done |]. apply Hrest.
  rewrite Ht, Hdir, Hfile. by rewrite append_assoc.
Qed.

Lemma SourceFileLocation_makes_files_relative_witness :
  ∃ l, Part000.document
         {| Part000.DisableTimestamp := false;
            Part000.CallerPrettyfier := None;
            Part000.TrimFilenamePrefix :=
              SourceFileLocation "/src/log.go" true;
            Part000.PrettyPrint := false |}
         Examples.request (map_to_list (Data Examples.request))
         !! sourceLocationKey = Some (VObject l)
       ∧ l !! "file" = Some (VString "app/main.go").
Proof.
  destruct (SourceFileLocation_makes_files_relative
              {| Part000.DisableTimestamp := false;
                 Part000.CallerPrettyfier := None;
                 Part000.TrimFilenamePrefix :=
                   SourceFileLocation "/src/log.go" true;
                 Part000.PrettyPrint := false |}
              Examples.request (map_to_list (Data Examples.request))
              Examples.frame "/src" "log.go" "app/main.go")
    as (l & Hl & _ & Hfile & _).
  - reflexivity.
  - discriminate.
  - reflexivity.
  - reflexivity.
  - reflexivity.
  - reflexivity.
  - reflexivity.
  - exists l. split; [exact Hl | exact Hfile].
Defined.

(** * Induction over values *)

Lemma vsize_VArray l v : v ∈ l → vsize v < vsize (VArray l).
Proof.
  intros Hin. cbn [vsize]. apply Nat.lt_succ_r.
  induction Hin as [v l | v w l _ IH]; simpl; lia.
Qed.

Lemma vsize_VObject (m : gmap string value) k v :
  m !! k = Some v → vsize v < vsize (VObject m).
Proof.
  intros Hk. cbn [vsize]. apply Nat.lt_succ_r.
  rewrite (map_fold_delete_L _ _ k v m); [lia | | done].
  intros. lia.
Qed.

Lemma value_nested_ind (P : value → Prop) :
  P VNull →
  (∀ b, P (VBool b)) →
  (∀ n, P (VInt n)) →
  (∀ s, P (VString s)) →
  (∀ l, Forall P l → P (VArray l)) →
  (∀ m : gmap string value, (∀ k v, m !! k = Some v → P v) → P (VObject m)) →
  (∀ ty msg, P (VError ty msg None)) →
  (∀ ty msg j, P j → P (VError ty msg (Some (inl j)))) →
  (∀ ty msg e, P (VError ty msg (Some (inr e)))) →
  (∀ ty, P (VUnsupported ty)) →
  ∀ v, P v.
Proof.
  intros HNull HBool HInt HString HArray HObject HErr HMarshal HFail HUnsup v.
  remember (vsize v) as n eqn:Hn. revert v Hn.
  induction n as [n IH] using lt_wf_ind. intros v ->.
  destruct v as [| | | |l|m|ty msg [[j|e]|]|]; auto.
  - apply HArray, Forall_forall. intros x Hx.
    by apply (IH (vsize x)); [apply vsize_VArray |].
  - apply HObject. intros k x Hk.
    by apply (IH (vsize x)); [apply (vsize_VObject m k) |].
  - apply HMarshal. apply (IH (vsize j)); [cbn [vsize]; lia | done].
Qed.

(** * One line for each entry *)

Section one_line.
Import json.
Implicit Types s t : string.










End one_line.



(** * The layout and the errors *)

Section layout.
Import json.

#[local] Instance keyLe_trans {A} : Transitive (@keyLe A).
Proof. intros x y z. unfold keyLe. apply transitivity. Qed.

#[local] Instance keyLe_total {A} : Total (@keyLe A).
Proof. intros x y. unfold keyLe. apply total, _. Qed.

(** Sorting looks at the keys only. *)
Lemma sortKeys_fmap {A B} (f : A → B) (m : gmap string A) :
  sortKeys (f <$> m) = prod_map id f <$> sortKeys m.
Proof.
  unfold sortKeys. apply (Sorted_unique_strong keyLe).
  - intros [k1 b1] [k2 b2] H1 H2 Hle1 Hle2.
    assert (k1 = k2) as <- by (by apply (anti_symm String.le)).
    rewrite merge_sort_Permutation in H1.
    apply elem_of_map_to_list in H1. rewrite lookup_fmap in H1.
    apply list_elem_of_fmap in H2 as ([k a] & [= -> ->] & H2).
    rewrite merge_sort_Permutation in H2.
    apply elem_of_map_to_list in H2. rewrite H2 in H1. by simplify_eq/=.
  - apply Sorted_merge_sort, _.
  - apply (Sorted_fmap _ keyLe keyLe); [by intros [] [] |].
    apply Sorted_merge_sort, _.
  - by rewrite !merge_sort_Permutation, map_to_list_fmap.
Qed.

Lemma errorOf_collect {A B C} (f : A → result B) (g : A → result C)
    (l : list (string * A)) :
  (∀ k a, (k, a) ∈ l → errorOf (f a) = errorOf (g a)) →
  errorOf (collect (prod_map id f <$> l))
  = errorOf (collect (prod_map id g <$> l)).
Proof.
  induction l as [|[k a] l IH]; intros H; [done |]. csimpl.
  assert (Ha : errorOf (f a) = errorOf (g a)) by (apply (H k); left).
  assert (Hl : errorOf (collect (prod_map id f <$> l))
               = errorOf (collect (prod_map id g <$> l))).
  { apply IH. intros k' a' Hin. apply (H k'). by right. }
  destruct (f a), (g a); simplify_eq/=; try done.
  by destruct (collect (prod_map id f <$> l)),
              (collect (prod_map id g <$> l)); simplify_eq/=.
Qed.

Lemma errorOf_collectList {A B C} (f : A → result B) (g : A → result C)
    (l : list A) :
  Forall (λ a, errorOf (f a) = errorOf (g a)) l →
  errorOf (collectList (map f l)) = errorOf (collectList (map g l)).
Proof.
  induction 1 as [|a l Ha _ IH]; [done |]. simpl.
  destruct (f a), (g a); simplify_eq/=; try done.
  by destruct (collectList (map f l)), (collectList (map g l));
    simplify_eq/=.
Qed.

Lemma errorOf_bind_Ok {A B} (r : result A) (k : A → B) :
  errorOf (bind r (λ a, Ok (k a))) = errorOf r.
Proof. by destruct r. Qed.

(** Whether a value is encoded, and the error when it is not, is the same
    for every indentation and depth. *)
Lemma render_error_layout v : ∀ pp depth pp' depth',
  errorOf (render pp depth v) = errorOf (render pp' depth' v).
Proof.
  induction v as [| b | n | s | l IH | m IH | ty msg | ty msg j IH
                 | ty msg e | ty] using value_nested_ind;
    intros pp depth pp' depth'; cbn [render]; try done.
  - rewrite !errorOf_bind_Ok. apply errorOf_collectList.
    eapply Forall_impl; [exact IH |]. intros v Hv. apply Hv.
  - rewrite !errorOf_bind_Ok, !sortKeys_fmap. apply errorOf_collect.
    intros k v Hin. unfold sortKeys in Hin.
    rewrite merge_sort_Permutation in Hin.
    apply elem_of_map_to_list in Hin. by eapply IH.
Qed.

Lemma encodeData_error_layout pp pp' entry data :
  err (encodeData pp entry data) = err (encodeData pp' entry data).
Proof.
  pose proof (render_error_layout (VObject data)
                (indentOf pp) 0 (indentOf pp') 0) as H.
  destruct (render (indentOf pp) 0 (VObject data)) as [t|e] eqn:Hr,
           (render (indentOf pp') 0 (VObject data)) as [t'|e'] eqn:Hr';
    simplify_eq/=.
  - by rewrite (encodeData_Ok _ _ _ _ Hr), (encodeData_Ok _ _ _ _ Hr').
  - by rewrite (encodeData_Err _ _ _ _ Hr), (encodeData_Err _ _ _ _ Hr').
Qed.
End layout.

(** X19. [PrettyPrint] changes the layout only: two formatters that differ
    in nothing else fail on the same entries, and with the same error.  In
    both revisions. *)
Theorem PrettyPrint_keeps_the_error
    (f f' : FormatterGo.Formatter) (g g' : Part000.Formatter)
    (entry : Entry) (order : list (string * value)) :
  (FormatterGo.DisableTimestamp f = FormatterGo.DisableTimestamp f' →
   FormatterGo.CallerPrettyfier f = FormatterGo.CallerPrettyfier f' →
   err (FormatterGo.Format f entry order)
   = err (FormatterGo.Format f' entry order))
  ∧ (Part000.DisableTimestamp g = Part000.DisableTimestamp g' →
     Part000.CallerPrettyfier g = Part000.CallerPrettyfier g' →
     Part000.TrimFilenamePrefix g = Part000.TrimFilenamePrefix g' →
     err (Part000.Format g entry order)
     = err (Part000.Format g' entry order)).
Proof.
  split.
  - destruct f as [ts cp pp], f' as [ts' cp' pp']. simpl.
    intros <- <-. unfold FormatterGo.Format. simpl.
    rewrite (encodeData_error_layout pp pp'). done.
  - destruct g as [ts cp tr pp], g' as [ts' cp' tr' pp']. simpl.
    intros <- <- <-. unfold Part000.Format. simpl.
    rewrite (encodeData_error_layout pp pp'). done.
Qed.

Lemma PrettyPrint_keeps_the_error_witness :
  err (FormatterGo.Format Examples.go
         (Examples.WithField "ch" (VUnsupported "chan int"))
         [("ch", VUnsupported "chan int")])
  = err (FormatterGo.Format
           {| FormatterGo.DisableTimestamp := false;
              FormatterGo.CallerPrettyfier := None;
              FormatterGo.PrettyPrint := true |}
           (Examples.WithField "ch" (VUnsupported "chan int"))
           [("ch", VUnsupported "chan int")])
  ∧ err (Part000.Format Examples.p0
           (Examples.WithField "ch" (VUnsupported "chan int"))
           [("ch", VUnsupported "chan int")])
    = err (Part000.Format
             {| Part000.DisableTimestamp := false;
                Part000.CallerPrettyfier := None;
                Part000.TrimFilenamePrefix := EmptyString;
                Part000.PrettyPrint := true |}
             (Examples.WithField "ch" (VUnsupported "chan int"))
             [("ch", VUnsupported "chan int")]).
Proof.
  destruct (PrettyPrint_keeps_the_error
              Examples.go
              {| FormatterGo.DisableTimestamp := false;
                 FormatterGo.CallerPrettyfier := None;
                 FormatterGo.PrettyPrint := true |}
              Examples.p0
              {| Part000.DisableTimestamp := false;
                 Part000.CallerPrettyfier := None;
                 Part000.TrimFilenamePrefix := EmptyString;
                 Part000.PrettyPrint := true |}
              (Examples.WithField "ch" (VUnsupported "chan int"))
              [("ch", VUnsupported "chan int")]) as [Hgo Hp0].
  split.
  - apply Hgo; reflexivity.
  - apply Hp0; reflexivity.
Defined.
